(** * VaccineRecordPrivacy: the capability registry and record store

    A shallow embedding of the Solidity contract [VaccineRecordPrivacy]
    (pragma ^0.8.24, checked arithmetic) and the properties of its
    access-permission model.

    - Storage mappings are finite maps read with the Solidity default
      (zero) value at absent keys.
    - [uint256] values are integers in [Z]; Solidity 0.8 arithmetic is
      checked, so an overflowing [+], [*] or [++] raises [Panic 0x11].
    - Contract functions are computations in a state-and-revert monad;
      an external call is [execute]: a revert rolls the state back. *)

From Stdlib Require Import ZArith.
From stdpp Require Import gmap strings list.

Open Scope Z_scope.

(** ** Value types *)

(** [address] is a 160-bit unsigned integer, [uint256] a 256-bit one. An
    encrypted integer ([euint8], [euint32]) is an opaque 32-byte handle. *)
Abbreviation address := Z (only parsing).
Abbreviation uint256 := Z (only parsing).
Abbreviation Handle := Z (only parsing).

Definition max_uint256 : Z := 2 ^ 256 - 1.

(** Solidity time unit: [1 days] is 86400 seconds. *)
Definition days : Z := 86400.

Module VaccineRecord.
Record t : Type := mk {
  encryptedPersonId : Handle;
  encryptedVaccineType : Handle;
  encryptedVaccineDate : Handle;
  encryptedDoseNumber : Handle;
  encryptedBatchNumber : Handle;
  isActive : bool;
  timestamp : uint256;
  authorizedDoctor : address
}.

(** The value of a storage slot that was never written. *)
Definition zero : t := mk 0 0 0 0 0 false 0 0.
End VaccineRecord.

Module AccessPermission.
Record t : Type := mk {
  canView : bool;
  canUpdate : bool;
  expiryTime : uint256;
  isActive : bool
}.

Definition zero : t := mk false false 0 false.
End AccessPermission.

Inductive Event : Type :=
| VaccineRecorded (recordId : uint256) (patient doctor : address)
| AccessGranted (patient accessor : address) (recordId : uint256)
| AccessRevoked (patient accessor : address) (recordId : uint256)
| DoctorAuthorized (doctor : address)
| DoctorRevoked (doctor : address)
| RecordUpdated (recordId : uint256) (updater : address).

(** ** Contract state *)

(** The contract's storage variables, followed by the two parts of the
    chain state its calls write outside its own storage.

    Modelled from the spec: the external ciphertext-authorization sink
    (the FHE library's access list, not part of this repository) is the
    set [allowed] of (handle, identity) pairs; [authorizeSelf] and
    [authorizeIdentity] add a pair and nothing removes one. *)
Record State : Type := mkState {
  healthAuthority : address;
  totalRecords : uint256;
  vaccineRecords : gmap Z VaccineRecord.t;
  accessPermissions : gmap Z (gmap Z AccessPermission.t);
  authorizedDoctors : gmap Z bool;
  userRecords : gmap Z (list Z);
  allowed : gset (Z * Z);
  events : list Event
}.

(** Transaction context: [msg.sender], [block.timestamp], [address(this)]. *)
Record Env : Type := mkEnv {
  msg_sender : address;
  block_timestamp : uint256;
  this : address
}.

(** *** Mapping reads (absent key = zero value) *)

Definition getRecord (s : State) (recordId : Z) : VaccineRecord.t :=
  default VaccineRecord.zero (vaccineRecords s !! recordId).

Definition getPermission (s : State) (user : Z) (recordId : Z) : AccessPermission.t :=
  default AccessPermission.zero (default ∅ (accessPermissions s !! user) !! recordId).

Definition isDoctor (s : State) (a : Z) : bool :=
  default false (authorizedDoctors s !! a).

Definition getUserRecords (s : State) (user : Z) : list Z :=
  default [] (userRecords s !! user).

(** *** Mapping writes *)

Definition set_totalRecords (n : Z) (s : State) : State :=
  mkState (healthAuthority s) n (vaccineRecords s) (accessPermissions s)
          (authorizedDoctors s) (userRecords s) (allowed s) (events s).

Definition setRecord (recordId : Z) (r : VaccineRecord.t) (s : State) : State :=
  mkState (healthAuthority s) (totalRecords s) (<[recordId := r]> (vaccineRecords s))
          (accessPermissions s) (authorizedDoctors s) (userRecords s)
          (allowed s) (events s).

Definition setPermission (user recordId : Z) (p : AccessPermission.t) (s : State) : State :=
  mkState (healthAuthority s) (totalRecords s) (vaccineRecords s)
          (<[user := <[recordId := p]> (default ∅ (accessPermissions s !! user))]>
             (accessPermissions s))
          (authorizedDoctors s) (userRecords s) (allowed s) (events s).

Definition setDoctor (a : Z) (b : bool) (s : State) : State :=
  mkState (healthAuthority s) (totalRecords s) (vaccineRecords s)
          (accessPermissions s) (<[a := b]> (authorizedDoctors s))
          (userRecords s) (allowed s) (events s).

Definition pushUserRecord (user recordId : Z) (s : State) : State :=
  mkState (healthAuthority s) (totalRecords s) (vaccineRecords s)
          (accessPermissions s) (authorizedDoctors s)
          (<[user := getUserRecords s user ++ [recordId]]> (userRecords s))
          (allowed s) (events s).

Definition allowPair (h who : Z) (s : State) : State :=
  mkState (healthAuthority s) (totalRecords s) (vaccineRecords s)
          (accessPermissions s) (authorizedDoctors s) (userRecords s)
          ({[ (h, who) ]} ∪ allowed s) (events s).

Definition logEvent (e : Event) (s : State) : State :=
  mkState (healthAuthority s) (totalRecords s) (vaccineRecords s)
          (accessPermissions s) (authorizedDoctors s) (userRecords s)
          (allowed s) (events s ++ [e]).

(** ** The revert monad *)

Inductive Error : Type :=
| Revert (reason : string)   (* a failed [require(cond, reason)] *)
| Panic (code : Z).          (* 0x11: arithmetic overflow *)

Definition M (A : Type) : Type := State -> Error + (A * State).

#[global] Instance M_ret : MRet M := fun A a s => inr (a, s).
#[global] Instance M_bind : MBind M := fun A B f m s =>
  match m s with
  | inl e => inl e
  | inr (a, s') => f a s'
  end.

Definition gets {A} (f : State -> A) : M A := fun s => inr (f s, s).
Definition modify (f : State -> State) : M unit := fun s => inr (tt, f s).
Definition throw {A} (e : Error) : M A := fun _ => inl e.

Definition require (cond : bool) (reason : string) : M unit :=
  if cond then mret tt else throw (Revert reason).

Definition emit (e : Event) : M unit := modify (logEvent e).

(** Checked [uint256] arithmetic of Solidity 0.8. *)
Definition checked_add (a b : Z) : M Z :=
  if a + b <=? max_uint256 then mret (a + b) else throw (Panic 17).

Definition checked_mul (a b : Z) : M Z :=
  if a * b <=? max_uint256 then mret (a * b) else throw (Panic 17).

(** An external call (one transaction): on a revert every state change made
    by the body is rolled back. *)
Definition execute {A} (tx : M A) (s : State) : (Error + A) * State :=
  match tx s with
  | inl e => (inl e, s)
  | inr (a, s') => (inr a, s')
  end.

(** ** Error taxonomy *)

Inductive ErrorKind : Type :=
| NotAuthorized
| InvalidArgument
| RecordNotActive.

(** Modelled from the spec: the contract reports failures as revert
    strings only; the grouping of those strings into error kinds is the
    taxonomy of the specification (caller lacks a role or ownership; null
    identity or out-of-range field; record inactive or never created). *)
Definition error_kind (e : Error) : option ErrorKind :=
  match e with
  | Panic _ => None
  | Revert r =>
      if existsb (String.eqb r)
           ["Not authorized health authority"; "Not an authorized doctor";
            "No access permission"; "Not record owner";
            "No update permission"; "Not authorized"]%string
      then Some NotAuthorized
      else if existsb (String.eqb r)
           ["Invalid patient address"; "Invalid vaccine type";
            "Invalid dose number"; "Invalid accessor address"]%string
      then Some InvalidArgument
      else if String.eqb r "Record not active" then Some RecordNotActive
      else None
  end.

(** ** View functions *)

Definition hasAccessPermission (env : Env) (user : address) (recordId : uint256)
    (s : State) : bool :=
  let permission := getPermission s user recordId in
  AccessPermission.isActive permission &&
  AccessPermission.canView permission &&
  (block_timestamp env <=? AccessPermission.expiryTime permission).

(** The loop of [hasOwnershipOfRecord]: scan from index 0, return at the
    first match. *)
Fixpoint scanRecords (records : list Z) (recordId : Z) : bool :=
  match records with
  | [] => false
  | r :: rest => if r =? recordId then true else scanRecords rest recordId
  end.

Definition hasOwnershipOfRecord (user : address) (recordId : uint256)
    (s : State) : bool :=
  scanRecords (getUserRecords s user) recordId.

Definition getAccessPermission (user : address) (recordId : uint256) (s : State)
    : bool * bool * Z * bool :=
  let permission := getPermission s user recordId in
  (AccessPermission.canView permission, AccessPermission.canUpdate permission,
   AccessPermission.expiryTime permission, AccessPermission.isActive permission).

Definition getRecordInfo (recordId : uint256) (s : State) : bool * Z * Z :=
  let record := getRecord s recordId in
  (VaccineRecord.isActive record, VaccineRecord.timestamp record,
   VaccineRecord.authorizedDoctor record).

(** ** Modifiers *)

Definition onlyHealthAuthority (env : Env) : M unit :=
  authority ← gets healthAuthority;
  require (msg_sender env =? authority) "Not authorized health authority".

Definition onlyAuthorizedDoctor (env : Env) : M unit :=
  ok ← gets (λ s, isDoctor s (msg_sender env));
  require ok "Not an authorized doctor".

Definition onlyRecordOwnerOrAuthorized (env : Env) (recordId : uint256) : M unit :=
  access ← gets (hasAccessPermission env (msg_sender env) recordId);
  record ← gets (λ s, getRecord s recordId);
  require (access || (VaccineRecord.authorizedDoctor record =? msg_sender env))
          "No access permission".

(** ** The external sink's authorization calls *)

Definition FHE_allow (h : Handle) (account : address) : M unit :=
  modify (allowPair h account).

Definition FHE_allowThis (env : Env) (h : Handle) : M unit :=
  FHE_allow h (this env).

(** ** Contract functions *)

(** Modelled from the spec: the external encryption capability
    [encrypt(width, plainValue) -> handle] of the FHE library (not part
    of this repository), one function per declared width. The handles
    are opaque: nothing below inspects them. *)
Class FHE : Type := {
  FHE_asEuint32 : Z -> Handle;
  FHE_asEuint8 : Z -> Handle
}.

Section Contract.

Context {fhe : FHE}.

(** [constructor]: a fresh contract, all storage zero. *)
Definition constructor (env : Env) : State :=
  mkState (msg_sender env) 0 ∅ ∅ ∅ ∅ ∅ [].

Definition authorizeDoctor (env : Env) (doctor : address) : M unit :=
  onlyHealthAuthority env ;;
  modify (setDoctor doctor true) ;;
  emit (DoctorAuthorized doctor).

Definition revokeDoctor (env : Env) (doctor : address) : M unit :=
  onlyHealthAuthority env ;;
  modify (setDoctor doctor false) ;;
  emit (DoctorRevoked doctor).

Definition recordVaccination (env : Env) (patient : address)
    (personId vaccineType vaccineDate doseNumber batchNumber : Z) : M unit :=
  onlyAuthorizedDoctor env ;;
  require (negb (patient =? 0)) "Invalid patient address" ;;
  require ((0 <? vaccineType) && (vaccineType <=? 10)) "Invalid vaccine type" ;;
  require ((0 <? doseNumber) && (doseNumber <=? 5)) "Invalid dose number" ;;
  (* totalRecords++ *)
  n ← gets totalRecords;
  n' ← checked_add n 1;
  modify (set_totalRecords n') ;;
  recordId ← gets totalRecords;
  let encryptedPersonId := FHE_asEuint32 personId in
  let encryptedVaccineType := FHE_asEuint8 vaccineType in
  let encryptedVaccineDate := FHE_asEuint32 vaccineDate in
  let encryptedDoseNumber := FHE_asEuint8 doseNumber in
  let encryptedBatchNumber := FHE_asEuint32 batchNumber in
  modify (setRecord recordId
    {| VaccineRecord.encryptedPersonId := encryptedPersonId;
       VaccineRecord.encryptedVaccineType := encryptedVaccineType;
       VaccineRecord.encryptedVaccineDate := encryptedVaccineDate;
       VaccineRecord.encryptedDoseNumber := encryptedDoseNumber;
       VaccineRecord.encryptedBatchNumber := encryptedBatchNumber;
       VaccineRecord.isActive := true;
       VaccineRecord.timestamp := block_timestamp env;
       VaccineRecord.authorizedDoctor := msg_sender env |}) ;;
  FHE_allowThis env encryptedPersonId ;;
  FHE_allowThis env encryptedVaccineType ;;
  FHE_allowThis env encryptedVaccineDate ;;
  FHE_allowThis env encryptedDoseNumber ;;
  FHE_allowThis env encryptedBatchNumber ;;
  FHE_allow encryptedPersonId patient ;;
  FHE_allow encryptedVaccineType patient ;;
  FHE_allow encryptedVaccineDate patient ;;
  FHE_allow encryptedDoseNumber patient ;;
  FHE_allow encryptedBatchNumber patient ;;
  FHE_allow encryptedPersonId (msg_sender env) ;;
  FHE_allow encryptedVaccineType (msg_sender env) ;;
  FHE_allow encryptedVaccineDate (msg_sender env) ;;
  FHE_allow encryptedDoseNumber (msg_sender env) ;;
  FHE_allow encryptedBatchNumber (msg_sender env) ;;
  modify (pushUserRecord patient recordId) ;;
  expiry ← checked_add (block_timestamp env) (365 * days);
  modify (setPermission patient recordId
    {| AccessPermission.canView := true;
       AccessPermission.canUpdate := false;
       AccessPermission.expiryTime := expiry;
       AccessPermission.isActive := true |}) ;;
  emit (VaccineRecorded recordId patient (msg_sender env)).

Definition grantAccess (env : Env) (accessor : address) (recordId : uint256)
    (canView canUpdate : bool) (durationInDays : uint256) : M unit :=
  active ← gets (λ s, VaccineRecord.isActive (getRecord s recordId));
  require active "Record not active" ;;
  owner ← gets (hasOwnershipOfRecord (msg_sender env) recordId);
  require owner "Not record owner" ;;
  require (negb (accessor =? 0)) "Invalid accessor address" ;;
  duration ← checked_mul durationInDays (1 * days);
  expiryTime ← checked_add (block_timestamp env) duration;
  modify (setPermission accessor recordId
    {| AccessPermission.canView := canView;
       AccessPermission.canUpdate := canUpdate;
       AccessPermission.expiryTime := expiryTime;
       AccessPermission.isActive := true |}) ;;
  (if canView then
     record ← gets (λ s, getRecord s recordId);
     FHE_allow (VaccineRecord.encryptedPersonId record) accessor ;;
     FHE_allow (VaccineRecord.encryptedVaccineType record) accessor ;;
     FHE_allow (VaccineRecord.encryptedVaccineDate record) accessor ;;
     FHE_allow (VaccineRecord.encryptedDoseNumber record) accessor ;;
     FHE_allow (VaccineRecord.encryptedBatchNumber record) accessor
   else mret tt) ;;
  emit (AccessGranted (msg_sender env) accessor recordId).

(** [accessPermissions[accessor][recordId].isActive = false]: the other
    three fields of the row keep their stored (or zero) values. *)
Definition clearActive (p : AccessPermission.t) : AccessPermission.t :=
  {| AccessPermission.canView := AccessPermission.canView p;
     AccessPermission.canUpdate := AccessPermission.canUpdate p;
     AccessPermission.expiryTime := AccessPermission.expiryTime p;
     AccessPermission.isActive := false |}.

Definition revokeAccess (env : Env) (accessor : address) (recordId : uint256)
    : M unit :=
  owner ← gets (hasOwnershipOfRecord (msg_sender env) recordId);
  require owner "Not record owner" ;;
  modify (λ s, setPermission accessor recordId
                 (clearActive (getPermission s accessor recordId)) s) ;;
  emit (AccessRevoked (msg_sender env) accessor recordId).

(** Field replacement in [updateVaccineRecord] ([record] is a storage
    reference, so each assignment writes the stored record). *)
Definition setVaccineType (recordId : Z) (h : Handle) (s : State) : State :=
  let r := getRecord s recordId in
  setRecord recordId
    (VaccineRecord.mk (VaccineRecord.encryptedPersonId r) h
       (VaccineRecord.encryptedVaccineDate r) (VaccineRecord.encryptedDoseNumber r)
       (VaccineRecord.encryptedBatchNumber r) (VaccineRecord.isActive r)
       (VaccineRecord.timestamp r) (VaccineRecord.authorizedDoctor r)) s.

Definition setVaccineDate (recordId : Z) (h : Handle) (s : State) : State :=
  let r := getRecord s recordId in
  setRecord recordId
    (VaccineRecord.mk (VaccineRecord.encryptedPersonId r)
       (VaccineRecord.encryptedVaccineType r) h (VaccineRecord.encryptedDoseNumber r)
       (VaccineRecord.encryptedBatchNumber r) (VaccineRecord.isActive r)
       (VaccineRecord.timestamp r) (VaccineRecord.authorizedDoctor r)) s.

Definition setDoseNumber (recordId : Z) (h : Handle) (s : State) : State :=
  let r := getRecord s recordId in
  setRecord recordId
    (VaccineRecord.mk (VaccineRecord.encryptedPersonId r)
       (VaccineRecord.encryptedVaccineType r) (VaccineRecord.encryptedVaccineDate r) h
       (VaccineRecord.encryptedBatchNumber r) (VaccineRecord.isActive r)
       (VaccineRecord.timestamp r) (VaccineRecord.authorizedDoctor r)) s.

Definition setBatchNumber (recordId : Z) (h : Handle) (s : State) : State :=
  let r := getRecord s recordId in
  setRecord recordId
    (VaccineRecord.mk (VaccineRecord.encryptedPersonId r)
       (VaccineRecord.encryptedVaccineType r) (VaccineRecord.encryptedVaccineDate r)
       (VaccineRecord.encryptedDoseNumber r) h (VaccineRecord.isActive r)
       (VaccineRecord.timestamp r) (VaccineRecord.authorizedDoctor r)) s.

Definition updateVaccineRecord (env : Env) (recordId : uint256)
    (newVaccineType newVaccineDate newDoseNumber newBatchNumber : Z) : M unit :=
  onlyRecordOwnerOrAuthorized env recordId ;;
  active ← gets (λ s, VaccineRecord.isActive (getRecord s recordId));
  require active "Record not active" ;;
  perm ← gets (λ s, getPermission s (msg_sender env) recordId);
  doctor ← gets (λ s, VaccineRecord.authorizedDoctor (getRecord s recordId));
  require (AccessPermission.canUpdate perm || (doctor =? msg_sender env))
          "No update permission" ;;
  (if 0 <? newVaccineType then
     modify (setVaccineType recordId (FHE_asEuint8 newVaccineType)) ;;
     FHE_allowThis env (FHE_asEuint8 newVaccineType)
   else mret tt) ;;
  (if 0 <? newVaccineDate then
     modify (setVaccineDate recordId (FHE_asEuint32 newVaccineDate)) ;;
     FHE_allowThis env (FHE_asEuint32 newVaccineDate)
   else mret tt) ;;
  (if 0 <? newDoseNumber then
     modify (setDoseNumber recordId (FHE_asEuint8 newDoseNumber)) ;;
     FHE_allowThis env (FHE_asEuint8 newDoseNumber)
   else mret tt) ;;
  (if 0 <? newBatchNumber then
     modify (setBatchNumber recordId (FHE_asEuint32 newBatchNumber)) ;;
     FHE_allowThis env (FHE_asEuint32 newBatchNumber)
   else mret tt) ;;
  emit (RecordUpdated recordId (msg_sender env)).

Definition deactivate (recordId : Z) (s : State) : State :=
  let r := getRecord s recordId in
  setRecord recordId
    (VaccineRecord.mk (VaccineRecord.encryptedPersonId r)
       (VaccineRecord.encryptedVaccineType r) (VaccineRecord.encryptedVaccineDate r)
       (VaccineRecord.encryptedDoseNumber r) (VaccineRecord.encryptedBatchNumber r)
       false (VaccineRecord.timestamp r) (VaccineRecord.authorizedDoctor r)) s.

Definition deactivateRecord (env : Env) (recordId : uint256) : M unit :=
  doctor ← gets (λ s, VaccineRecord.authorizedDoctor (getRecord s recordId));
  authority ← gets healthAuthority;
  require ((doctor =? msg_sender env) || (msg_sender env =? authority))
          "Not authorized" ;;
  modify (deactivate recordId).


(** ** Derived views used in the statements *)

(** The five ciphertext handles of a stored record. *)
Definition handles (r : VaccineRecord.t) : list Handle :=
  [VaccineRecord.encryptedPersonId r; VaccineRecord.encryptedVaccineType r;
   VaccineRecord.encryptedVaccineDate r; VaccineRecord.encryptedDoseNumber r;
   VaccineRecord.encryptedBatchNumber r].

(** The three guards of [updateVaccineRecord] read off as one function, in
    the order the code runs them: the modifier, the activity check, the
    update-right check. [updateVaccineRecord_guards] below shows that the
    call reverts with exactly this error, or succeeds when there is none. *)
Definition updateGuards (env : Env) (recordId : uint256) (s : State)
    : option Error :=
  if negb (hasAccessPermission env (msg_sender env) recordId s ||
           (VaccineRecord.authorizedDoctor (getRecord s recordId) =? msg_sender env))
  then Some (Revert "No access permission")
  else if negb (VaccineRecord.isActive (getRecord s recordId))
  then Some (Revert "Record not active")
  else if negb (AccessPermission.canUpdate (getPermission s (msg_sender env) recordId) ||
                (VaccineRecord.authorizedDoctor (getRecord s recordId) =? msg_sender env))
  then Some (Revert "No update permission")
  else None.

End Contract.

(** ** A concrete run *)

Module Scenario.

(** A stand-in sink for running the contract on concrete inputs. *)
Definition toyFHE : FHE :=
  {| FHE_asEuint32 := fun v => 2 * v; FHE_asEuint8 := fun v => 2 * v + 1 |}.

Definition ministry : address := 100.   (* deployer = health authority *)
Definition drBob : address := 200.      (* authorized doctor, creator *)
Definition alice : address := 300.      (* patient, owner *)
Definition carol : address := 400.      (* a specialist, grantee *)
Definition mallory : address := 500.    (* holds nothing *)
Definition registry : address := 999.   (* address(this) *)

Definition t0 : uint256 := 1700000000.

Definition call (who : address) (now : uint256) : Env := mkEnv who now registry.

Definition deployed : State := constructor (call ministry t0).

Definition withDoctor : State :=
  (execute (authorizeDoctor (call ministry t0) drBob) deployed).2.

(** Record 1: created by [drBob] for [alice] at [t0]. *)
Definition withRecord : State :=
  (execute (recordVaccination (fhe := toyFHE) (call drBob t0) alice
              12345 1 1700000000 1 98765) withDoctor).2.

(** [alice] grants [carol] a 7-day view grant at [t0 + 10]. *)
Definition withGrant : State :=
  (execute (grantAccess (call alice (t0 + 10)) carol 1 true false 7) withRecord).2.

(** ... a zero-day view grant. *)
Definition withZeroGrant : State :=
  (execute (grantAccess (call alice (t0 + 10)) carol 1 true false 0) withRecord).2.

(** ... an update-without-view grant, and a view-and-update grant. *)
Definition withUpdateOnlyGrant : State :=
  (execute (grantAccess (call alice (t0 + 10)) carol 1 false true 7) withRecord).2.

Definition withFullGrant : State :=
  (execute (grantAccess (call alice (t0 + 10)) carol 1 true true 7) withRecord).2.

(** [carol] updates record 1 under the view-and-update grant. *)
Definition withUpdate : State :=
  (execute (updateVaccineRecord (fhe := toyFHE) (call carol (t0 + 20)) 1
              2 0 2 99999) withFullGrant).2.

(** [alice] revokes [carol] right after the 7-day grant. *)
Definition withRevoked : State :=
  (execute (revokeAccess (call alice (t0 + 10)) carol 1) withGrant).2.

(** [drBob] deactivates record 1. *)
Definition withDeactivated : State :=
  (execute (deactivateRecord (call drBob (t0 + 20)) 1) withRecord).2.

End Scenario.

(** ** The remaining external functions *)

(** Modelled from the spec: the external comparison capability
    [compareEqual(a, b) -> EncryptedBool] of the FHE library (not part of
    this repository). The result is again an opaque handle. *)
Class FHECompare : Type := {
  FHE_eq : Handle -> Handle -> Handle
}.

Section Queries.

Context {fhe : FHE} {cmp : FHECompare}.

Definition verifyVaccineRecord (env : Env) (recordId : uint256)
    (expectedPersonId : Z) : M Handle :=
  access ← gets (hasAccessPermission env (msg_sender env) recordId);
  require access "No access permission" ;;
  record ← gets (λ s, getRecord s recordId);
  let expectedId := FHE_asEuint32 expectedPersonId in
  mret (FHE_eq (VaccineRecord.encryptedPersonId record) expectedId).

(** The loop of [getStatistics],
    [for (uint256 i = 1; i <= totalRecords; i++)], with both increments
    checked. [fuel] bounds the number of iterations; [None] means the bound
    was too small. *)
Fixpoint statisticsLoop (fuel : nat) (i activeRecords : Z) (s : State)
    : option (Error + Z) :=
  match fuel with
  | O => None
  | S fuel' =>
      if i <=? totalRecords s then
        match (if VaccineRecord.isActive (getRecord s i)
               then checked_add activeRecords 1 s
               else inr (activeRecords, s)) with
        | inl e => Some (inl e)
        | inr (activeRecords', _) =>
            match checked_add i 1 s with
            | inl e => Some (inl e)
            | inr (i', _) => statisticsLoop fuel' i' activeRecords' s
            end
        end
      else Some (inr activeRecords)
  end.

(** [getStatistics]: the second component, named [totalAuthorizedDoctors]
    in the source, is [totalRecords]. *)
Definition getStatistics (s : State) : option (Error + Z * Z) :=
  match statisticsLoop (S (Z.to_nat (totalRecords s))) 1 0 s with
  | None => None
  | Some (inl e) => Some (inl e)
  | Some (inr activeRecords) => Some (inr (activeRecords, totalRecords s))
  end.

(** The state-changing external functions of the contract, as one call. *)
Inductive Call : Type :=
| AuthorizeDoctor (doctor : address)
| RevokeDoctor (doctor : address)
| RecordVaccination (patient : address)
    (personId vaccineType vaccineDate doseNumber batchNumber : Z)
| GrantAccess (accessor : address) (recordId : uint256)
    (canView canUpdate : bool) (durationInDays : uint256)
| RevokeAccess (accessor : address) (recordId : uint256)
| UpdateVaccineRecord (recordId : uint256)
    (newVaccineType newVaccineDate newDoseNumber newBatchNumber : Z)
| VerifyVaccineRecord (recordId : uint256) (expectedPersonId : Z)
| DeactivateRecord (recordId : uint256).

Definition dispatch (env : Env) (c : Call) : M unit :=
  match c with
  | AuthorizeDoctor doctor => authorizeDoctor env doctor
  | RevokeDoctor doctor => revokeDoctor env doctor
  | RecordVaccination patient personId vaccineType vaccineDate doseNumber
      batchNumber =>
      recordVaccination env patient personId vaccineType vaccineDate doseNumber
        batchNumber
  | GrantAccess accessor recordId canView canUpdate durationInDays =>
      grantAccess env accessor recordId canView canUpdate durationInDays
  | RevokeAccess accessor recordId => revokeAccess env accessor recordId
  | UpdateVaccineRecord recordId newVaccineType newVaccineDate newDoseNumber
      newBatchNumber =>
      updateVaccineRecord env recordId newVaccineType newVaccineDate
        newDoseNumber newBatchNumber
  | VerifyVaccineRecord recordId expectedPersonId =>
      verifyVaccineRecord env recordId expectedPersonId ;; mret tt
  | DeactivateRecord recordId => deactivateRecord env recordId
  end.

(** One transaction, and a sequence of transactions (a reverted one leaves
    the state as it was and the sequence goes on). *)
Definition step (env : Env) (c : Call) (s : State) : State :=
  (execute (dispatch env c) s).2.

Fixpoint run (calls : list (Env * Call)) (s : State) : State :=
  match calls with
  | [] => s
  | (env, c) :: rest => run rest (step env c s)
  end.

End Queries.

(** The number of active records among the ids [1 .. totalRecords]. *)
Definition activeCount (s : State) : Z :=
  Z.of_nat (length (filter (λ i, VaccineRecord.isActive (getRecord s i) = true)
                      (seqZ 1 (totalRecords s)))).

(** The shape of the storage in every state the contract can reach: the
    counter bounds the ids in use, each id in use has exactly one owner. *)
Record wellFormed (s : State) : Prop := mkWellFormed {
  wf_counter : 0 <= totalRecords s <= max_uint256;
  wf_record_unused :
    ∀ id, ¬ (1 <= id <= totalRecords s) → getRecord s id = VaccineRecord.zero;
  wf_permission_unused :
    ∀ u id, ¬ (1 <= id <= totalRecords s) →
            getPermission s u id = AccessPermission.zero;
  wf_owned_in_use :
    ∀ u id, id ∈ getUserRecords s u → 1 <= id <= totalRecords s;
  wf_owner_unique :
    ∀ u v id, id ∈ getUserRecords s u → id ∈ getUserRecords s v → u = v;
  wf_owner_exists :
    ∀ id, 1 <= id <= totalRecords s → ∃ u, u ≠ 0 ∧ id ∈ getUserRecords s u
}.

(** ** Guards and effects read off as functions

    Each state-changing function runs its checks first and then writes. The
    definitions below give the first failing check (in the order of the
    code) and the state written when there is none; the [_run] lemmas show
    that a call is exactly that. *)

Section Effects.

Context {fhe : FHE}.

Definition doctorGuards (env : Env) (s : State) : option Error :=
  if msg_sender env =? healthAuthority s then None
  else Some (Revert "Not authorized health authority").

Definition recordGuards (env : Env) (patient : address)
    (vaccineType doseNumber : Z) (s : State) : option Error :=
  if negb (isDoctor s (msg_sender env))
  then Some (Revert "Not an authorized doctor")
  else if patient =? 0 then Some (Revert "Invalid patient address")
  else if negb ((0 <? vaccineType) && (vaccineType <=? 10))
  then Some (Revert "Invalid vaccine type")
  else if negb ((0 <? doseNumber) && (doseNumber <=? 5))
  then Some (Revert "Invalid dose number")
  else if negb (totalRecords s + 1 <=? max_uint256) then Some (Panic 17)
  else if negb (block_timestamp env + 365 * days <=? max_uint256)
  then Some (Panic 17)
  else None.

Definition allowFive (r : VaccineRecord.t) (who : address) (s : State) : State :=
  allowPair (VaccineRecord.encryptedBatchNumber r) who
    (allowPair (VaccineRecord.encryptedDoseNumber r) who
       (allowPair (VaccineRecord.encryptedVaccineDate r) who
          (allowPair (VaccineRecord.encryptedVaccineType r) who
             (allowPair (VaccineRecord.encryptedPersonId r) who s)))).

Definition newRecord (env : Env)
    (personId vaccineType vaccineDate doseNumber batchNumber : Z)
    : VaccineRecord.t :=
  {| VaccineRecord.encryptedPersonId := FHE_asEuint32 personId;
     VaccineRecord.encryptedVaccineType := FHE_asEuint8 vaccineType;
     VaccineRecord.encryptedVaccineDate := FHE_asEuint32 vaccineDate;
     VaccineRecord.encryptedDoseNumber := FHE_asEuint8 doseNumber;
     VaccineRecord.encryptedBatchNumber := FHE_asEuint32 batchNumber;
     VaccineRecord.isActive := true;
     VaccineRecord.timestamp := block_timestamp env;
     VaccineRecord.authorizedDoctor := msg_sender env |}.

Definition recordEffect (env : Env) (patient : address)
    (personId vaccineType vaccineDate doseNumber batchNumber : Z) (s : State)
    : State :=
  let recordId := totalRecords s + 1 in
  let r := newRecord env personId vaccineType vaccineDate doseNumber batchNumber in
  logEvent (VaccineRecorded recordId patient (msg_sender env))
    (setPermission patient recordId
       (AccessPermission.mk true false (block_timestamp env + 365 * days) true)
       (pushUserRecord patient recordId
          (allowFive r (msg_sender env)
             (allowFive r patient
                (allowFive r (this env)
                   (setRecord recordId r (set_totalRecords recordId s))))))).

Definition grantGuards (env : Env) (accessor : address) (recordId : uint256)
    (durationInDays : uint256) (s : State) : option Error :=
  if negb (VaccineRecord.isActive (getRecord s recordId))
  then Some (Revert "Record not active")
  else if negb (hasOwnershipOfRecord (msg_sender env) recordId s)
  then Some (Revert "Not record owner")
  else if accessor =? 0 then Some (Revert "Invalid accessor address")
  else if negb (durationInDays * (1 * days) <=? max_uint256) then Some (Panic 17)
  else if negb (block_timestamp env + durationInDays * (1 * days) <=? max_uint256)
  then Some (Panic 17)
  else None.

Definition grantEffect (env : Env) (accessor : address) (recordId : uint256)
    (canView canUpdate : bool) (durationInDays : uint256) (s : State) : State :=
  let granted :=
    setPermission accessor recordId
      (AccessPermission.mk canView canUpdate
         (block_timestamp env + durationInDays * (1 * days)) true) s in
  logEvent (AccessGranted (msg_sender env) accessor recordId)
    (if canView then allowFive (getRecord s recordId) accessor granted
     else granted).

Definition revokeEffect (env : Env) (accessor : address) (recordId : uint256)
    (s : State) : State :=
  logEvent (AccessRevoked (msg_sender env) accessor recordId)
    (setPermission accessor recordId
       (clearActive (getPermission s accessor recordId)) s).

Definition replaceField (env : Env) (set : Z -> Handle -> State -> State)
    (recordId : uint256) (newValue : Z) (h : Handle) (s : State) : State :=
  if 0 <? newValue then allowPair h (this env) (set recordId h s) else s.

Definition updateEffect (env : Env) (recordId : uint256)
    (newVaccineType newVaccineDate newDoseNumber newBatchNumber : Z)
    (s : State) : State :=
  logEvent (RecordUpdated recordId (msg_sender env))
    (replaceField env setBatchNumber recordId newBatchNumber
       (FHE_asEuint32 newBatchNumber)
       (replaceField env setDoseNumber recordId newDoseNumber
          (FHE_asEuint8 newDoseNumber)
          (replaceField env setVaccineDate recordId newVaccineDate
             (FHE_asEuint32 newVaccineDate)
             (replaceField env setVaccineType recordId newVaccineType
                (FHE_asEuint8 newVaccineType) s)))).

(** The record stored by [updateVaccineRecord]: a field is replaced exactly
    when its new value is positive. *)
Definition updatedRecord (newVaccineType newVaccineDate newDoseNumber
    newBatchNumber : Z) (old : VaccineRecord.t) : VaccineRecord.t :=
  {| VaccineRecord.encryptedPersonId := VaccineRecord.encryptedPersonId old;
     VaccineRecord.encryptedVaccineType :=
       if 0 <? newVaccineType then FHE_asEuint8 newVaccineType
       else VaccineRecord.encryptedVaccineType old;
     VaccineRecord.encryptedVaccineDate :=
       if 0 <? newVaccineDate then FHE_asEuint32 newVaccineDate
       else VaccineRecord.encryptedVaccineDate old;
     VaccineRecord.encryptedDoseNumber :=
       if 0 <? newDoseNumber then FHE_asEuint8 newDoseNumber
       else VaccineRecord.encryptedDoseNumber old;
     VaccineRecord.encryptedBatchNumber :=
       if 0 <? newBatchNumber then FHE_asEuint32 newBatchNumber
       else VaccineRecord.encryptedBatchNumber old;
     VaccineRecord.isActive := VaccineRecord.isActive old;
     VaccineRecord.timestamp := VaccineRecord.timestamp old;
     VaccineRecord.authorizedDoctor := VaccineRecord.authorizedDoctor old |}.

Definition deactivateGuards (env : Env) (recordId : uint256) (s : State)
    : option Error :=
  if (VaccineRecord.authorizedDoctor (getRecord s recordId) =? msg_sender env) ||
     (msg_sender env =? healthAuthority s)
  then None else Some (Revert "Not authorized").

Definition passes (guards : option Error) : bool :=
  match guards with
  | None => true
  | Some _ => false
  end.

(** What one call does to the state when its checks pass. *)
Definition outcome (guards : option Error) (effect : State) (s : State)
    : (Error + unit) * State :=
  match guards with
  | Some e => (inl e, s)
  | None => (inr tt, effect)
  end.

End Effects.

(** ** More of the concrete run *)

Module Session.

Import Scenario.

Definition toyCompare : FHECompare := {| FHE_eq := fun a b => a - b |}.

(** The calls that lead from the fresh contract to [withDoctor]. *)
Definition history : list (Env * Call) :=
  [ (call ministry t0, AuthorizeDoctor drBob) ].

(** Calls that follow the creation of record 1: an update by the creator,
    a deactivation attempt by a stranger, a second revocation by the owner. *)
Definition aftermath : list (Env * Call) :=
  [ (call drBob (t0 + 30), UpdateVaccineRecord 1 2 0 2 99999);
    (call mallory (t0 + 31), DeactivateRecord 1);
    (call alice (t0 + 32), RevokeAccess carol 1) ].

(** The health authority withdraws [drBob]'s authorization after record 1
    was created. *)
Definition withDoctorRevoked : State :=
  (execute (revokeDoctor (call ministry (t0 + 5)) drBob) withRecord).2.

(** A second record for [alice]. *)
Definition withSecondRecord : State :=
  (execute (recordVaccination (fhe := toyFHE) (call drBob (t0 + 50)) alice
              12345 2 1700000050 1 98766) withRecord).2.

(** After the 7-day grant to [carol] the creator replaces the vaccine type
    and the dose number; then [alice] revokes [carol]. *)
Definition withGrantUpdated : State :=
  run (fhe := toyFHE) (cmp := toyCompare)
    [ (call drBob (t0 + 12), UpdateVaccineRecord 1 2 0 2 99999) ] withGrant.

Definition withGrantUpdatedRevoked : State :=
  (execute (revokeAccess (call alice (t0 + 15)) carol 1) withGrantUpdated).2.

(** A clock close to the end of [uint256]. *)
Definition doomsday : uint256 := max_uint256 - 100.

End Session.

Section Properties.

Context {fhe : FHE}.

(** ** Reading back the permission table *)

Lemma getPermission_setPermission_eq user recordId p s :
  getPermission (setPermission user recordId p s) user recordId = p.
Proof.
  unfold getPermission, setPermission; cbn [accessPermissions].
  rewrite lookup_insert_eq; cbn [from_option id].
  by rewrite lookup_insert_eq.
Qed.

Lemma getPermission_setPermission_ne user recordId p s user' recordId' :
  (user', recordId') ≠ (user, recordId) →
  getPermission (setPermission user recordId p s) user' recordId'
  = getPermission s user' recordId'.
Proof.
  intros Hne. unfold getPermission, setPermission; cbn [accessPermissions].
  destruct (decide (user = user')) as [->|Hu].
  - rewrite lookup_insert_eq; cbn [from_option id].
    rewrite lookup_insert_ne; [done | congruence].
  - by rewrite lookup_insert_ne.
Qed.

(** Writes to other storage variables leave the permission table alone. *)
Lemma getPermission_logEvent e s u r :
  getPermission (logEvent e s) u r = getPermission s u r.
Proof. reflexivity. Qed.

Lemma getPermission_allowPair h who s u r :
  getPermission (allowPair h who s) u r = getPermission s u r.
Proof. reflexivity. Qed.

Lemma getPermission_pushUserRecord user recordId s u r :
  getPermission (pushUserRecord user recordId s) u r = getPermission s u r.
Proof. reflexivity. Qed.

Lemma getPermission_setRecord recordId rec s u r :
  getPermission (setRecord recordId rec s) u r = getPermission s u r.
Proof. reflexivity. Qed.

Lemma getPermission_set_totalRecords n s u r :
  getPermission (set_totalRecords n s) u r = getPermission s u r.
Proof. reflexivity. Qed.

Create Rewrite HintDb perm_frame.
#[local] Hint Rewrite getPermission_logEvent getPermission_allowPair
  getPermission_pushUserRecord getPermission_setRecord
  getPermission_set_totalRecords : perm_frame.

(** Effectiveness depends on the stored row and the clock only. *)
Lemma hasAccessPermission_row env user recordId s :
  hasAccessPermission env user recordId s
  = AccessPermission.isActive (getPermission s user recordId) &&
    AccessPermission.canView (getPermission s user recordId) &&
    (block_timestamp env <=? AccessPermission.expiryTime (getPermission s user recordId)).
Proof. reflexivity. Qed.

(** ** Running the monad *)

Lemma execute_inr {A} (tx : M A) s a s' :
  execute tx s = (inr a, s') ↔ tx s = inr (a, s').
Proof.
  unfold execute. destruct (tx s) as [e | [a0 s0]]; split; intros H; by simplify_eq.
Qed.

Lemma execute_inl {A} (tx : M A) s e s' :
  execute tx s = (inl e, s') ↔ tx s = inl e ∧ s' = s.
Proof.
  unfold execute. destruct (tx s) as [e0 | [a0 s0]]; split;
    [intros H | intros [H ?] | intros H | intros [H ?]]; by simplify_eq.
Qed.

Ltac unfold_monad :=
  unfold onlyHealthAuthority, onlyAuthorizedDoctor, onlyRecordOwnerOrAuthorized,
    FHE_allowThis, FHE_allow, require, emit, gets, modify, throw,
    checked_add, checked_mul, mbind, M_bind, mret, M_ret in *.

Ltac case_guards :=
  repeat match goal with
  | H : context [if ?c then _ else _] |- _ => destruct c eqn:?; simpl in H
  | |- context [if ?c then _ else _] => destruct c eqn:?; simpl
  end.

(** A successful [grantAccess] stores the row it was asked to store, with
    expiry [now + durationInDays * 86400] (no wrap-around: an overflow
    reverts), and touches no other row. *)
Lemma grantAccess_success env accessor recordId canView canUpdate D s s' :
  grantAccess env accessor recordId canView canUpdate D s = inr (tt, s') →
  VaccineRecord.isActive (getRecord s recordId) = true ∧
  hasOwnershipOfRecord (msg_sender env) recordId s = true ∧
  getPermission s' accessor recordId
  = AccessPermission.mk canView canUpdate (block_timestamp env + D * 86400) true ∧
  (∀ u r, (u, r) ≠ (accessor, recordId) →
          getPermission s' u r = getPermission s u r) ∧
  vaccineRecords s' = vaccineRecords s.
Proof.
  unfold grantAccess. unfold_monad. simpl. intros H.
  destruct (VaccineRecord.isActive (getRecord s recordId)) eqn:Hact; [|done].
  destruct (hasOwnershipOfRecord (msg_sender env) recordId s) eqn:Hown; [|done].
  simpl in H.
  destruct (negb (accessor =? 0)); [|done].
  destruct (D * (1 * days) <=? max_uint256); [|done].
  destruct (block_timestamp env + D * (1 * days) <=? max_uint256); [|done].
  replace (D * (1 * days)) with (D * 86400) in H by (unfold days; lia).
  destruct canView; simpl in H; simplify_eq; simpl;
    (split_and!; [done | done | | | done]).
  all: try (apply getPermission_setPermission_eq).
  all: intros u r Hne; by apply getPermission_setPermission_ne.
Qed.


(** What a successful [recordVaccination] checked and wrote. *)
Lemma recordVaccination_success env patient personId vaccineType vaccineDate
    doseNumber batchNumber s s' :
  recordVaccination env patient personId vaccineType vaccineDate doseNumber
    batchNumber s = inr (tt, s') →
  isDoctor s (msg_sender env) = true ∧
  totalRecords s' = totalRecords s + 1 ∧
  getPermission s' patient (totalRecords s + 1)
  = AccessPermission.mk true false (block_timestamp env + 365 * 86400) true ∧
  (∀ u r, (u, r) ≠ (patient, totalRecords s + 1) →
          getPermission s' u r = getPermission s u r) ∧
  getRecord s' (totalRecords s + 1)
  = VaccineRecord.mk (FHE_asEuint32 personId) (FHE_asEuint8 vaccineType)
      (FHE_asEuint32 vaccineDate) (FHE_asEuint8 doseNumber)
      (FHE_asEuint32 batchNumber) true (block_timestamp env) (msg_sender env) ∧
  (∀ h, h ∈ handles (getRecord s' (totalRecords s + 1)) →
        (h, this env) ∈ allowed s' ∧ (h, patient) ∈ allowed s' ∧
        (h, msg_sender env) ∈ allowed s').
Proof.
  unfold recordVaccination. unfold_monad. simpl. intros H.
  destruct (isDoctor s (msg_sender env)) eqn:Hdoc; [|done]. simpl in H.
  destruct (negb (patient =? 0)); [|done]. simpl in H.
  destruct ((0 <? vaccineType) && (vaccineType <=? 10)); [|done]. simpl in H.
  destruct ((0 <? doseNumber) && (doseNumber <=? 5)); [|done]. simpl in H.
  destruct (totalRecords s + 1 <=? max_uint256); [|done]. simpl in H.
  destruct (block_timestamp env + 365 * days <=? max_uint256); [|done].
  replace (365 * days) with (365 * 86400) in H by (unfold days; lia).
  injection H as H.
  assert (Hrec : getRecord s' (totalRecords s + 1)
    = VaccineRecord.mk (FHE_asEuint32 personId) (FHE_asEuint8 vaccineType)
        (FHE_asEuint32 vaccineDate) (FHE_asEuint8 doseNumber)
        (FHE_asEuint32 batchNumber) true (block_timestamp env) (msg_sender env)).
  { subst s'. unfold getRecord.
    cbn [vaccineRecords logEvent setPermission pushUserRecord allowPair
         setRecord set_totalRecords totalRecords].
    by rewrite lookup_insert_eq. }
  split_and!.
  - done.
  - by subst s'.
  - subst s'. rewrite getPermission_logEvent.
    apply getPermission_setPermission_eq.
  - intros u r Hne. subst s'. rewrite getPermission_logEvent.
    rewrite getPermission_setPermission_ne by done.
    by autorewrite with perm_frame.
  - exact Hrec.
  - rewrite Hrec. unfold handles.
    cbn [VaccineRecord.encryptedPersonId VaccineRecord.encryptedVaccineType
         VaccineRecord.encryptedVaccineDate VaccineRecord.encryptedDoseNumber
         VaccineRecord.encryptedBatchNumber].
    intros h Hh. subst s'.
    cbn [allowed logEvent setPermission pushUserRecord allowPair setRecord
         set_totalRecords totalRecords].
    clear Hrec. set_unfold.
    destruct Hh as [-> | [-> | [-> | [-> | [-> | []]]]]];
      split_and!; tauto.
Qed.


(** ** Expiry of grants *)

(** C1. A grant created by [grantAccess] with [canView = true] and
    duration [D] days at time [t] stores the expiry [t + D * 86400]; as
    long as the row is neither revoked nor replaced (any later state in
    which the stored row is the same), [hasAccessPermission] for the
    grantee is true at every clock value [now <= t + D * 86400], in
    particular at [t + D * 86400 - 1], and false at every
    [now > t + D * 86400], in particular at [t + D * 86400 + 1]. *)
Theorem grant_expiry_correct env accessor recordId canUpdate D s s' :
  execute (grantAccess env accessor recordId true canUpdate D) s = (inr tt, s') →
  let t := block_timestamp env in
  AccessPermission.expiryTime (getPermission s' accessor recordId) = t + D * 86400 ∧
  ∀ later,
    getPermission later accessor recordId = getPermission s' accessor recordId →
    (∀ env', block_timestamp env' <= t + D * 86400 →
             hasAccessPermission env' accessor recordId later = true) ∧
    (∀ env', block_timestamp env' > t + D * 86400 →
             hasAccessPermission env' accessor recordId later = false) ∧
    (∀ env', block_timestamp env' = t + D * 86400 - 1 →
             hasAccessPermission env' accessor recordId later = true) ∧
    (∀ env', block_timestamp env' = t + D * 86400 + 1 →
             hasAccessPermission env' accessor recordId later = false).
Proof.
  intros Hrun t. apply execute_inr, grantAccess_success in Hrun.
  destruct Hrun as (_ & _ & Hrow & _ & _). fold t in Hrow.
  split; [by rewrite Hrow|].
  intros later Hsame.
  assert (Hle : ∀ env', block_timestamp env' <= t + D * 86400 →
                        hasAccessPermission env' accessor recordId later = true).
  { intros env' Hnow. rewrite hasAccessPermission_row, Hsame, Hrow. simpl.
    apply Z.leb_le, Hnow. }
  assert (Hgt : ∀ env', block_timestamp env' > t + D * 86400 →
                        hasAccessPermission env' accessor recordId later = false).
  { intros env' Hnow. rewrite hasAccessPermission_row, Hsame, Hrow. simpl.
    apply Z.leb_gt. lia. }
  split_and!; [exact Hle | exact Hgt | | ].
  - intros env' Hnow. apply Hle. lia.
  - intros env' Hnow. apply Hgt. lia.
Qed.

(** C4 (as the code has it). A successful [grantAccess] with
    [durationInDays = 0] at time [t] stores the expiry [t]. While the row
    is not replaced, the grantee is not an effective viewer at any clock
    value after [t]; at [t] itself (the block of the grant) the boundary
    [now <= expiryTime] still holds, so the grantee is an effective viewer
    exactly when the grant carries [canView]. *)
Theorem zero_duration_grant env accessor recordId canView canUpdate s s' :
  execute (grantAccess env accessor recordId canView canUpdate 0) s = (inr tt, s') →
  let t := block_timestamp env in
  AccessPermission.expiryTime (getPermission s' accessor recordId) = t ∧
  ∀ later,
    getPermission later accessor recordId = getPermission s' accessor recordId →
    (∀ env', block_timestamp env' > t →
             hasAccessPermission env' accessor recordId later = false) ∧
    (∀ env', block_timestamp env' = t →
             hasAccessPermission env' accessor recordId later = canView).
Proof.
  intros Hrun t. apply execute_inr, grantAccess_success in Hrun.
  destruct Hrun as (_ & _ & Hrow & _ & _). fold t in Hrow.
  replace (t + 0 * 86400) with t in Hrow by lia.
  split; [by rewrite Hrow|].
  intros later Hsame. split; intros env' Hnow;
    rewrite hasAccessPermission_row, Hsame, Hrow; simpl.
  - apply andb_false_intro2, Z.leb_gt. lia.
  - rewrite Hnow, Z.leb_refl. by destruct canView.
Qed.

(** ** Record creation *)

(** C3. After a successful [recordVaccination] at time [t] for patient
    [P], the new record id is the incremented counter and the permission
    table holds for [(P, newId)] the row [canView = true],
    [canUpdate = false], [isActive = true], [expiryTime = t + 365 days];
    hence [hasAccessPermission P newId] is true at once and at every
    clock value up to [t + 365 days]. *)
Theorem recordVaccination_owner_grant env patient personId vaccineType
    vaccineDate doseNumber batchNumber s s' :
  execute (recordVaccination env patient personId vaccineType vaccineDate
             doseNumber batchNumber) s = (inr tt, s') →
  let t := block_timestamp env in
  let newId := totalRecords s' in
  newId = totalRecords s + 1 ∧
  getPermission s' patient newId
  = {| AccessPermission.canView := true;
       AccessPermission.canUpdate := false;
       AccessPermission.expiryTime := t + 365 * 86400;
       AccessPermission.isActive := true |} ∧
  hasAccessPermission env patient newId s' = true ∧
  ∀ env', block_timestamp env' <= t + 365 * 86400 →
          hasAccessPermission env' patient newId s' = true.
Proof.
  intros Hrun t newId. apply execute_inr, recordVaccination_success in Hrun.
  destruct Hrun as (_ & Hid & Hrow & _). subst newId. rewrite Hid.
  assert (Hle : ∀ env', block_timestamp env' <= t + 365 * 86400 →
            hasAccessPermission env' patient (totalRecords s + 1) s' = true).
  { intros env' Hnow. rewrite hasAccessPermission_row, Hrow. simpl.
    apply Z.leb_le, Hnow. }
  split_and!; [done | exact Hrow | | exact Hle].
  apply Hle. subst t. lia.
Qed.

(** C5 (as the code has it). A successful [recordVaccination] installs
    exactly one row in the permission table: the view-only grant
    ([canView = true], [canUpdate = false], expiry [t + 365 days]) of the
    owner [patient]. Every other row, the creator's included when the
    creator is not the patient, is as it was before the call. Creator and
    owner (and the contract itself) are both authorized at the external
    sink on each of the five new ciphertext handles. *)
Theorem recordVaccination_installs_owner_grant_only env patient personId
    vaccineType vaccineDate doseNumber batchNumber s s' :
  execute (recordVaccination env patient personId vaccineType vaccineDate
             doseNumber batchNumber) s = (inr tt, s') →
  let newId := totalRecords s' in
  getPermission s' patient newId
  = AccessPermission.mk true false (block_timestamp env + 365 * 86400) true ∧
  (∀ u r, (u, r) ≠ (patient, newId) → getPermission s' u r = getPermission s u r) ∧
  (msg_sender env ≠ patient →
     getPermission s' (msg_sender env) newId = getPermission s (msg_sender env) newId) ∧
  (∀ h, h ∈ handles (getRecord s' newId) →
        (h, this env) ∈ allowed s' ∧ (h, patient) ∈ allowed s' ∧
        (h, msg_sender env) ∈ allowed s').
Proof.
  intros Hrun newId. apply execute_inr, recordVaccination_success in Hrun.
  destruct Hrun as (_ & Hid & Hrow & Hframe & _ & Hacl).
  subst newId. rewrite Hid.
  split_and!; [exact Hrow | exact Hframe | | exact Hacl].
  intros Hne. apply Hframe. congruence.
Qed.


(** C2. [recordVaccination] rejects, and the state after the call is the
    state before it (so [totalRecords], the record store, the owner's
    record list and the permission table are unchanged), whenever the
    patient is the zero address, [vaccineType] is outside [1,10],
    [doseNumber] is outside [1,5], or the caller is not an authorized
    doctor. The failure is a not-authorized error when the caller is not
    an authorized doctor and an invalid-argument error otherwise; in
    particular an authorized doctor calling with [vaccineType = 0] gets an
    invalid-argument error ("Invalid vaccine type" when the patient is
    not the zero address) and [totalRecords] is unchanged. *)
Theorem recordVaccination_rejects env patient personId vaccineType vaccineDate
    doseNumber batchNumber s :
  patient = 0 ∨ ¬ (1 <= vaccineType <= 10) ∨ ¬ (1 <= doseNumber <= 5) ∨
    isDoctor s (msg_sender env) = false →
  ∃ e,
    execute (recordVaccination env patient personId vaccineType vaccineDate
               doseNumber batchNumber) s = (inl e, s) ∧
    error_kind e
    = Some (if isDoctor s (msg_sender env) then InvalidArgument else NotAuthorized) ∧
    (isDoctor s (msg_sender env) = true → vaccineType = 0 →
       error_kind e = Some InvalidArgument ∧
       (patient ≠ 0 → e = Revert "Invalid vaccine type") ∧
       totalRecords
         (execute (recordVaccination env patient personId vaccineType vaccineDate
                     doseNumber batchNumber) s).2 = totalRecords s).
Proof.
  intros Hbad. unfold execute, recordVaccination. unfold_monad. simpl.
  destruct (isDoctor s (msg_sender env)) eqn:Hdoc; simpl.
  2: { eexists; split_and!; [done | done | done]. }
  destruct (patient =? 0) eqn:Hp; simpl.
  { apply Z.eqb_eq in Hp. eexists; split_and!; [done | done |].
    intros _ _. split_and!; done. }
  apply Z.eqb_neq in Hp.
  destruct ((0 <? vaccineType) && (vaccineType <=? 10)) eqn:Hv; simpl.
  2: { eexists; split_and!; [done | done |]. intros _ _. split_and!; done. }
  apply andb_prop in Hv as [Hv1%Z.ltb_lt Hv2%Z.leb_le].
  destruct ((0 <? doseNumber) && (doseNumber <=? 5)) eqn:Hd; simpl.
  2: { eexists; split_and!; [done | done |]. intros _ ?. lia. }
  apply andb_prop in Hd as [Hd1%Z.ltb_lt Hd2%Z.leb_le].
  exfalso. destruct Hbad as [? | [? | [? | ?]]]; [done | lia | lia | done].
Qed.

(** ** Owner-only mutation of grants *)

(** C6 (as the code has it). A caller whose record list does not contain
    [recordId] cannot change any grant: [revokeAccess] reverts with "Not
    record owner" (not-authorized), and [grantAccess] reverts with "Not
    record owner" (not-authorized) when the record is active and with
    "Record not active" when the record is inactive or was never created,
    because the activity check comes first. Both leave the state as it
    was. Nothing is assumed about the caller's own permission row or about
    the caller being the record's creator. *)
Theorem non_owner_cannot_grant_or_revoke env accessor recordId canView
    canUpdate D s :
  hasOwnershipOfRecord (msg_sender env) recordId s = false →
  execute (revokeAccess env accessor recordId) s
  = (inl (Revert "Not record owner"), s) ∧
  execute (grantAccess env accessor recordId canView canUpdate D) s
  = (inl (Revert (if VaccineRecord.isActive (getRecord s recordId)
                  then "Not record owner" else "Record not active")), s) ∧
  error_kind (Revert "Not record owner") = Some NotAuthorized ∧
  error_kind (Revert "Record not active") = Some RecordNotActive.
Proof.
  intros Hown. split_and!; [| | done | done].
  - unfold execute, revokeAccess. unfold_monad. simpl. by rewrite Hown.
  - unfold execute, grantAccess. unfold_monad. simpl.
    destruct (VaccineRecord.isActive (getRecord s recordId)); simpl; [|done].
    by rewrite Hown.
Qed.

(** ** Revocation *)

(** What a successful [revokeAccess] wrote: one flag of one row and one
    log entry. *)
Lemma revokeAccess_success env accessor recordId s s' :
  revokeAccess env accessor recordId s = inr (tt, s') →
  hasOwnershipOfRecord (msg_sender env) recordId s = true ∧
  s' = logEvent (AccessRevoked (msg_sender env) accessor recordId)
         (setPermission accessor recordId
            (clearActive (getPermission s accessor recordId)) s).
Proof.
  unfold revokeAccess. unfold_monad. simpl.
  destruct (hasOwnershipOfRecord (msg_sender env) recordId s); simpl; [|done].
  intros H. by simplify_eq.
Qed.

(** C7. [revokeAccess] called by the record's owner always succeeds,
    whatever the stored row of the grantee is (no grant at all, an already
    revoked grant, a live one), and in the state it leaves the grantee is
    not an effective viewer at any clock value, the current one
    included. *)
Theorem owner_revoke_never_fails env accessor recordId s :
  hasOwnershipOfRecord (msg_sender env) recordId s = true →
  ∃ s',
    execute (revokeAccess env accessor recordId) s = (inr tt, s') ∧
    hasAccessPermission env accessor recordId s' = false ∧
    ∀ env', hasAccessPermission env' accessor recordId s' = false.
Proof.
  intros Hown.
  exists (logEvent (AccessRevoked (msg_sender env) accessor recordId)
            (setPermission accessor recordId
               (clearActive (getPermission s accessor recordId)) s)).
  assert (Hall : ∀ env', hasAccessPermission env' accessor recordId
            (logEvent (AccessRevoked (msg_sender env) accessor recordId)
               (setPermission accessor recordId
                  (clearActive (getPermission s accessor recordId)) s)) = false).
  { intros env'. rewrite hasAccessPermission_row, getPermission_logEvent,
      getPermission_setPermission_eq. reflexivity. }
  split_and!; [| apply Hall | exact Hall].
  unfold execute, revokeAccess. unfold_monad. simpl. by rewrite Hown.
Qed.

(** ** Updating a record *)

(** The body of [updateVaccineRecord] after its three guards: the field
    replacements and the event cannot fail. *)
Lemma update_fields_total env recordId newVaccineType newVaccineDate
    newDoseNumber newBatchNumber s :
  ∃ s',
    ((if 0 <? newVaccineType then
        modify (setVaccineType recordId (FHE_asEuint8 newVaccineType)) ;;
        FHE_allowThis env (FHE_asEuint8 newVaccineType)
      else mret tt) ;;
     (if 0 <? newVaccineDate then
        modify (setVaccineDate recordId (FHE_asEuint32 newVaccineDate)) ;;
        FHE_allowThis env (FHE_asEuint32 newVaccineDate)
      else mret tt) ;;
     (if 0 <? newDoseNumber then
        modify (setDoseNumber recordId (FHE_asEuint8 newDoseNumber)) ;;
        FHE_allowThis env (FHE_asEuint8 newDoseNumber)
      else mret tt) ;;
     (if 0 <? newBatchNumber then
        modify (setBatchNumber recordId (FHE_asEuint32 newBatchNumber)) ;;
        FHE_allowThis env (FHE_asEuint32 newBatchNumber)
      else mret tt) ;;
     emit (RecordUpdated recordId (msg_sender env))) s = inr (tt, s').
Proof.
  unfold_monad.
  destruct (0 <? newVaccineType), (0 <? newVaccineDate),
    (0 <? newDoseNumber), (0 <? newBatchNumber); eexists; reflexivity.
Qed.

Lemma updateVaccineRecord_guards env recordId newVaccineType newVaccineDate
    newDoseNumber newBatchNumber s :
  match updateGuards env recordId s with
  | Some e =>
      execute (updateVaccineRecord env recordId newVaccineType newVaccineDate
                 newDoseNumber newBatchNumber) s = (inl e, s)
  | None =>
      ∃ s', execute (updateVaccineRecord env recordId newVaccineType
                       newVaccineDate newDoseNumber newBatchNumber) s
            = (inr tt, s')
  end.
Proof.
  unfold updateGuards, execute, updateVaccineRecord.
  destruct (update_fields_total env recordId newVaccineType newVaccineDate
              newDoseNumber newBatchNumber s) as [s' Hs']. revert Hs'.
  unfold onlyRecordOwnerOrAuthorized, require, gets, throw, mbind, M_bind,
    mret, M_ret.
  destruct (hasAccessPermission env (msg_sender env) recordId s ||
            (VaccineRecord.authorizedDoctor (getRecord s recordId) =? msg_sender env));
    simpl; [|done].
  destruct (VaccineRecord.isActive (getRecord s recordId)); simpl; [|done].
  destruct (AccessPermission.canUpdate (getPermission s (msg_sender env) recordId) ||
            (VaccineRecord.authorizedDoctor (getRecord s recordId) =? msg_sender env));
    simpl; [|done].
  intros ->. by exists s'.
Qed.

(** C8. On an active record, [updateVaccineRecord] called by the record's
    creator (the stored [authorizedDoctor]) passes all three checks and
    succeeds, whatever the permission table holds for the creator: no row,
    an expired row, a revoked row. *)
Theorem creator_can_always_update env recordId newVaccineType newVaccineDate
    newDoseNumber newBatchNumber s :
  VaccineRecord.isActive (getRecord s recordId) = true →
  VaccineRecord.authorizedDoctor (getRecord s recordId) = msg_sender env →
  updateGuards env recordId s = None ∧
  ∃ s', execute (updateVaccineRecord env recordId newVaccineType newVaccineDate
                   newDoseNumber newBatchNumber) s = (inr tt, s').
Proof.
  intros Hact Hdoc.
  assert (Hg : updateGuards env recordId s = None).
  { unfold updateGuards. rewrite Hact, Hdoc, Z.eqb_refl, !orb_true_r. done. }
  split; [exact Hg|].
  pose proof (updateVaccineRecord_guards env recordId newVaccineType
                newVaccineDate newDoseNumber newBatchNumber s) as H.
  by rewrite Hg in H.
Qed.

(** C10. For a caller who is not the record's stored creator,
    [updateVaccineRecord] succeeds only if the caller's stored permission
    row has, all at once, [isActive], [canView], an expiry not before the
    current time and [canUpdate] (and the record is active). In
    particular, with a row that has [canUpdate] but not [canView] the call
    reverts with "No access permission" and changes nothing. *)
Theorem non_creator_update_needs_view_and_update env recordId newVaccineType
    newVaccineDate newDoseNumber newBatchNumber s :
  VaccineRecord.authorizedDoctor (getRecord s recordId) ≠ msg_sender env →
  let p := getPermission s (msg_sender env) recordId in
  (∀ s', execute (updateVaccineRecord env recordId newVaccineType newVaccineDate
                    newDoseNumber newBatchNumber) s = (inr tt, s') →
         AccessPermission.isActive p = true ∧
         AccessPermission.canView p = true ∧
         block_timestamp env <= AccessPermission.expiryTime p ∧
         AccessPermission.canUpdate p = true ∧
         VaccineRecord.isActive (getRecord s recordId) = true) ∧
  (AccessPermission.canView p = false →
     execute (updateVaccineRecord env recordId newVaccineType newVaccineDate
                newDoseNumber newBatchNumber) s
     = (inl (Revert "No access permission"), s)).
Proof.
  intros Hdoc%Z.eqb_neq p.
  pose proof (updateVaccineRecord_guards env recordId newVaccineType
                newVaccineDate newDoseNumber newBatchNumber s) as H.
  unfold updateGuards in H. rewrite Hdoc, !orb_false_r in H.
  rewrite hasAccessPermission_row in H. fold p in H.
  split.
  - intros s' Hrun. rewrite Hrun in H.
    destruct (AccessPermission.isActive p); [|done].
    destruct (AccessPermission.canView p); [|done].
    destruct (block_timestamp env <=? AccessPermission.expiryTime p) eqn:Hnow;
      [|done].
    apply Z.leb_le in Hnow. simpl in H.
    destruct (VaccineRecord.isActive (getRecord s recordId)); [|done].
    destruct (AccessPermission.canUpdate p); [|done].
    done.
  - intros Hview. rewrite Hview, andb_false_r in H. exact H.
Qed.

End Properties.

(** ** The theorems at work on the concrete run *)

Import Scenario.

(* C1 on a 7-day grant: effective one second before the expiry and at it,
    not one second after. *)
Lemma grant_expiry_correct_witness :
  execute (grantAccess (call alice (t0 + 10)) carol 1 true false 7) withRecord
  = (inr tt, withGrant) ∧
  AccessPermission.expiryTime (getPermission withGrant carol 1) = t0 + 10 + 7 * 86400 ∧
  hasAccessPermission (call carol (t0 + 10 + 7 * 86400 - 1)) carol 1 withGrant = true ∧
  hasAccessPermission (call carol (t0 + 10 + 7 * 86400)) carol 1 withGrant = true ∧
  hasAccessPermission (call carol (t0 + 10 + 7 * 86400 + 1)) carol 1 withGrant = false.
Proof.
  assert (Hrun : execute (grantAccess (call alice (t0 + 10)) carol 1 true false 7)
                   withRecord = (inr tt, withGrant)) by (vm_compute; reflexivity).
  destruct (grant_expiry_correct _ _ _ _ _ _ _ Hrun) as [Hexp Hlater].
  destruct (Hlater withGrant eq_refl) as (Hle & _ & Hbefore & Hafter).
  split_and!.
  - exact Hrun.
  - exact Hexp.
  - apply Hbefore. reflexivity.
  - apply Hle. reflexivity.
  - apply Hafter. reflexivity.
Defined.

(* C2 on [vaccineType = 0] sent by the authorized doctor. *)
Lemma recordVaccination_rejects_witness :
  ∃ e,
    execute (recordVaccination (fhe := toyFHE) (call drBob t0) alice
               12345 0 1700000000 1 98765) withDoctor = (inl e, withDoctor) ∧
    error_kind e = Some InvalidArgument ∧
    e = Revert "Invalid vaccine type".
Proof.
  destruct (recordVaccination_rejects (fhe := toyFHE) (call drBob t0) alice
              12345 0 1700000000 1 98765 withDoctor)
    as (e & Hrun & _ & Hzero).
  { right. left. lia. }
  destruct Hzero as (Hkind & Hreason & _); [by vm_compute | reflexivity |].
  exists e. split_and!; [exact Hrun | exact Hkind |].
  apply Hreason. by vm_compute.
Defined.

(* C3 on record 1. *)
Lemma recordVaccination_owner_grant_witness :
  totalRecords withRecord = 1 ∧
  getPermission withRecord alice 1
  = AccessPermission.mk true false (t0 + 365 * 86400) true ∧
  hasAccessPermission (call alice t0) alice 1 withRecord = true.
Proof.
  assert (Hrun : execute (recordVaccination (fhe := toyFHE) (call drBob t0) alice
                            12345 1 1700000000 1 98765) withDoctor
                 = (inr tt, withRecord)) by (vm_compute; reflexivity).
  assert (Hone : totalRecords withRecord = 1) by (vm_compute; reflexivity).
  destruct (recordVaccination_owner_grant _ _ _ _ _ _ _ _ _ Hrun)
    as (_ & Hrow & Hnow & _).
  rewrite Hone in Hrow, Hnow.
  split_and!; [exact Hone | exact Hrow | exact Hnow].
Defined.

(* C4: the claim as worded fails. A zero-day view grant is still effective
    at the time of the grant itself. *)
Lemma zero_duration_grant_effective_at_grant_time :
  ¬ (∀ env accessor recordId canView canUpdate s s',
       execute (grantAccess env accessor recordId canView canUpdate 0) s
       = (inr tt, s') →
       ∀ env', block_timestamp env <= block_timestamp env' →
               hasAccessPermission env' accessor recordId s' = false).
Proof.
  intros Hclaim.
  assert (Hrun : execute (grantAccess (call alice (t0 + 10)) carol 1 true false 0)
                   withRecord = (inr tt, withZeroGrant)) by (vm_compute; reflexivity).
  specialize (Hclaim _ _ _ _ _ _ _ Hrun (call carol (t0 + 10))).
  assert (Hnow : hasAccessPermission (call carol (t0 + 10)) carol 1 withZeroGrant
                 = true) by (vm_compute; reflexivity).
  rewrite Hnow in Hclaim. discriminate Hclaim. simpl. lia.
Qed.

(* C4 (as the code has it) on the same grant. *)
Lemma zero_duration_grant_witness :
  AccessPermission.expiryTime (getPermission withZeroGrant carol 1) = t0 + 10 ∧
  hasAccessPermission (call carol (t0 + 10)) carol 1 withZeroGrant = true ∧
  hasAccessPermission (call carol (t0 + 11)) carol 1 withZeroGrant = false.
Proof.
  assert (Hrun : execute (grantAccess (call alice (t0 + 10)) carol 1 true false 0)
                   withRecord = (inr tt, withZeroGrant)) by (vm_compute; reflexivity).
  destruct (zero_duration_grant _ _ _ _ _ _ _ Hrun) as [Hexp Hlater].
  destruct (Hlater withZeroGrant eq_refl) as [Hafter Hat].
  split_and!; [exact Hexp | apply Hat; reflexivity | apply Hafter; by vm_compute].
Defined.

(* C5: the claim as worded fails. Creating record 1 leaves the creator's
    permission row empty, and the owner's row has no update right. *)
Lemma creation_installs_no_full_access_grants :
  ¬ (∀ (fhe : FHE) env patient personId vaccineType vaccineDate doseNumber
       batchNumber s s',
       execute (recordVaccination env patient personId vaccineType vaccineDate
                  doseNumber batchNumber) s = (inr tt, s') →
       let newId := totalRecords s' in
       (AccessPermission.isActive (getPermission s' (msg_sender env) newId) = true ∧
        AccessPermission.canView (getPermission s' (msg_sender env) newId) = true ∧
        AccessPermission.canUpdate (getPermission s' (msg_sender env) newId) = true) ∧
       (AccessPermission.isActive (getPermission s' patient newId) = true ∧
        AccessPermission.canView (getPermission s' patient newId) = true ∧
        AccessPermission.canUpdate (getPermission s' patient newId) = true)).
Proof.
  intros Hclaim.
  assert (Hrun : execute (recordVaccination (fhe := toyFHE) (call drBob t0) alice
                            12345 1 1700000000 1 98765) withDoctor
                 = (inr tt, withRecord)) by (vm_compute; reflexivity).
  destruct (Hclaim toyFHE _ _ _ _ _ _ _ _ _ Hrun) as [[Hcreator _] _].
  vm_compute in Hcreator. discriminate Hcreator.
Qed.

(* C5 (as the code has it) on record 1. *)
Lemma recordVaccination_installs_owner_grant_only_witness :
  getPermission withRecord alice 1
  = AccessPermission.mk true false (t0 + 365 * 86400) true ∧
  getPermission withRecord drBob 1 = AccessPermission.zero ∧
  (FHE_asEuint32 (FHE := toyFHE) 12345, drBob) ∈ allowed withRecord ∧
  (FHE_asEuint32 (FHE := toyFHE) 12345, alice) ∈ allowed withRecord.
Proof.
  assert (Hrun : execute (recordVaccination (fhe := toyFHE) (call drBob t0) alice
                            12345 1 1700000000 1 98765) withDoctor
                 = (inr tt, withRecord)) by (vm_compute; reflexivity).
  assert (Hone : totalRecords withRecord = 1) by (vm_compute; reflexivity).
  assert (Hbefore : getPermission withDoctor drBob 1 = AccessPermission.zero)
    by (vm_compute; reflexivity).
  destruct (recordVaccination_installs_owner_grant_only _ _ _ _ _ _ _ _ _ Hrun)
    as (Hrow & _ & Hcreator & Hacl).
  rewrite Hone in Hrow, Hcreator, Hacl.
  destruct (Hacl (FHE_asEuint32 (FHE := toyFHE) 12345)) as (_ & Hp & Hd).
  { vm_compute. left. }
  split_and!; [exact Hrow | | exact Hd | exact Hp].
  rewrite <- Hbefore. apply Hcreator. by vm_compute.
Defined.

(* C6: the claim as worded fails. On the deactivated record 1 a non-owner's
    [grantAccess] is rejected as record-not-active, not as not-authorized. *)
Lemma non_owner_grant_on_inactive_record :
  ¬ (∀ env accessor recordId canView canUpdate D s,
       1 <= recordId <= totalRecords s →
       hasOwnershipOfRecord (msg_sender env) recordId s = false →
       ∃ e,
         execute (grantAccess env accessor recordId canView canUpdate D) s
         = (inl e, s) ∧
         error_kind e = Some NotAuthorized).
Proof.
  intros Hclaim.
  destruct (Hclaim (call mallory (t0 + 30)) carol 1 true false 30 withDeactivated)
    as (e & Hrun & Hkind).
  { by vm_compute. }
  { by vm_compute. }
  assert (Hreal : execute (grantAccess (call mallory (t0 + 30)) carol 1 true false 30)
                    withDeactivated
                  = (inl (Revert "Record not active"), withDeactivated))
    by (vm_compute; reflexivity).
  rewrite Hreal in Hrun. injection Hrun as <-.
  vm_compute in Hkind. discriminate Hkind.
Qed.

(* C6 (as the code has it): [mallory], who owns nothing, on the active
    record 1, although [carol] already holds a grant there. *)
Lemma non_owner_cannot_grant_or_revoke_witness :
  execute (revokeAccess (call mallory (t0 + 30)) carol 1) withGrant
  = (inl (Revert "Not record owner"), withGrant) ∧
  execute (grantAccess (call mallory (t0 + 30)) mallory 1 true true 30) withGrant
  = (inl (Revert "Not record owner"), withGrant).
Proof.
  assert (Hown : hasOwnershipOfRecord (msg_sender (call mallory (t0 + 30))) 1
                   withGrant = false) by (vm_compute; reflexivity).
  assert (Hact : VaccineRecord.isActive (getRecord withGrant 1) = true)
    by (vm_compute; reflexivity).
  destruct (non_owner_cannot_grant_or_revoke (call mallory (t0 + 30)) carol 1
              true true 30 withGrant Hown) as (Hrevoke & _).
  destruct (non_owner_cannot_grant_or_revoke (call mallory (t0 + 30)) mallory 1
              true true 30 withGrant Hown) as (_ & Hgrant & _).
  rewrite Hact in Hgrant.
  split; [exact Hrevoke | exact Hgrant].
Defined.

(* C7 on a grantee who never had a grant. *)
Lemma owner_revoke_never_fails_witness :
  ∃ s',
    execute (revokeAccess (call alice (t0 + 10)) mallory 1) withRecord = (inr tt, s') ∧
    hasAccessPermission (call alice (t0 + 10)) mallory 1 s' = false.
Proof.
  assert (Hown : hasOwnershipOfRecord (msg_sender (call alice (t0 + 10))) 1
                   withRecord = true) by (vm_compute; reflexivity).
  destruct (owner_revoke_never_fails (call alice (t0 + 10)) mallory 1 withRecord Hown)
    as (s' & Hrun & Hnow & _).
  exists s'. split; [exact Hrun | exact Hnow].
Defined.

(* C8 on the creator of record 1, whose permission row is empty. *)
Lemma creator_can_always_update_witness :
  getPermission withRecord drBob 1 = AccessPermission.zero ∧
  ∃ s',
    execute (updateVaccineRecord (fhe := toyFHE) (call drBob (t0 + 10)) 1
               2 0 2 99999) withRecord = (inr tt, s').
Proof.
  split; [by vm_compute|].
  assert (Hact : VaccineRecord.isActive (getRecord withRecord 1) = true)
    by (vm_compute; reflexivity).
  assert (Hdoc : VaccineRecord.authorizedDoctor (getRecord withRecord 1)
                 = msg_sender (call drBob (t0 + 10))) by (vm_compute; reflexivity).
  exact (proj2 (creator_can_always_update (fhe := toyFHE) (call drBob (t0 + 10)) 1
                  2 0 2 99999 withRecord Hact Hdoc)).
Defined.

(* C10: with an update-without-view grant [carol]'s update is rejected;
    with a view-and-update grant it goes through, and the row then has all
    four properties. *)
Lemma non_creator_update_needs_view_and_update_witness :
  execute (updateVaccineRecord (fhe := toyFHE) (call carol (t0 + 20)) 1 2 0 2 99999)
    withUpdateOnlyGrant
  = (inl (Revert "No access permission"), withUpdateOnlyGrant) ∧
  AccessPermission.canUpdate (getPermission withUpdateOnlyGrant carol 1) = true ∧
  execute (updateVaccineRecord (fhe := toyFHE) (call carol (t0 + 20)) 1 2 0 2 99999)
    withFullGrant = (inr tt, withUpdate) ∧
  AccessPermission.isActive (getPermission withFullGrant carol 1) = true ∧
  AccessPermission.canView (getPermission withFullGrant carol 1) = true ∧
  AccessPermission.canUpdate (getPermission withFullGrant carol 1) = true.
Proof.
  assert (Hdoc : VaccineRecord.authorizedDoctor (getRecord withUpdateOnlyGrant 1)
                 ≠ msg_sender (call carol (t0 + 20)))
    by (vm_compute; intros Heq; discriminate Heq).
  assert (Hdoc' : VaccineRecord.authorizedDoctor (getRecord withFullGrant 1)
                  ≠ msg_sender (call carol (t0 + 20)))
    by (vm_compute; intros Heq; discriminate Heq).
  assert (Hrun : execute (updateVaccineRecord (fhe := toyFHE) (call carol (t0 + 20))
                            1 2 0 2 99999) withFullGrant = (inr tt, withUpdate))
    by (vm_compute; reflexivity).
  destruct (non_creator_update_needs_view_and_update (fhe := toyFHE)
              (call carol (t0 + 20)) 1 2 0 2 99999 withUpdateOnlyGrant Hdoc)
    as [_ Hreject].
  destruct (non_creator_update_needs_view_and_update (fhe := toyFHE)
              (call carol (t0 + 20)) 1 2 0 2 99999 withFullGrant Hdoc')
    as [Hneeds _].
  destruct (Hneeds _ Hrun) as (Hactive & Hview & _ & Hupdate & _).
  split_and!.
  - apply Hreject. by vm_compute.
  - by vm_compute.
  - exact Hrun.
  - exact Hactive.
  - exact Hview.
  - exact Hupdate.
Defined.

(** ** Every call as guards and effect *)

Section Lifecycle.

Context {fhe : FHE} {cmp : FHECompare}.

Ltac run_monad :=
  unfold execute, outcome, onlyHealthAuthority, onlyAuthorizedDoctor,
    onlyRecordOwnerOrAuthorized, FHE_allowThis, FHE_allow, require, emit, gets,
    modify, throw, checked_add, checked_mul, mbind, M_bind, mret, M_ret.

Lemma authorizeDoctor_run env doctor s :
  execute (authorizeDoctor env doctor) s
  = outcome (doctorGuards env s)
      (logEvent (DoctorAuthorized doctor) (setDoctor doctor true s)) s.
Proof.
  unfold authorizeDoctor, doctorGuards. run_monad.
  by destruct (msg_sender env =? healthAuthority s).
Qed.

Lemma revokeDoctor_run env doctor s :
  execute (revokeDoctor env doctor) s
  = outcome (doctorGuards env s)
      (logEvent (DoctorRevoked doctor) (setDoctor doctor false s)) s.
Proof.
  unfold revokeDoctor, doctorGuards. run_monad.
  by destruct (msg_sender env =? healthAuthority s).
Qed.

Lemma recordVaccination_run env patient personId vaccineType vaccineDate
    doseNumber batchNumber s :
  execute (recordVaccination env patient personId vaccineType vaccineDate
             doseNumber batchNumber) s
  = outcome (recordGuards env patient vaccineType doseNumber s)
      (recordEffect env patient personId vaccineType vaccineDate doseNumber
         batchNumber s) s.
Proof.
  unfold recordVaccination, recordGuards, recordEffect. run_monad. simpl.
  destruct (isDoctor s (msg_sender env)); simpl; [|done].
  destruct (patient =? 0); simpl; [done|].
  destruct ((0 <? vaccineType) && (vaccineType <=? 10)); simpl; [|done].
  destruct ((0 <? doseNumber) && (doseNumber <=? 5)); simpl; [|done].
  destruct (totalRecords s + 1 <=? max_uint256); simpl; [|done].
  destruct (block_timestamp env + 365 * days <=? max_uint256); simpl; done.
Qed.

Lemma grantAccess_run env accessor recordId canView canUpdate D s :
  execute (grantAccess env accessor recordId canView canUpdate D) s
  = outcome (grantGuards env accessor recordId D s)
      (grantEffect env accessor recordId canView canUpdate D s) s.
Proof.
  unfold grantAccess, grantGuards, grantEffect. run_monad. simpl.
  destruct (VaccineRecord.isActive (getRecord s recordId)); simpl; [|done].
  destruct (hasOwnershipOfRecord (msg_sender env) recordId s); simpl; [|done].
  destruct (accessor =? 0); simpl; [done|].
  destruct (D * (1 * days) <=? max_uint256); simpl; [|done].
  destruct (block_timestamp env + D * (1 * days) <=? max_uint256); simpl; [|done].
  by destruct canView.
Qed.

Lemma revokeAccess_run env accessor recordId s :
  execute (revokeAccess env accessor recordId) s
  = outcome (if hasOwnershipOfRecord (msg_sender env) recordId s then None
             else Some (Revert "Not record owner"))
      (revokeEffect env accessor recordId s) s.
Proof.
  unfold revokeAccess, revokeEffect. run_monad. simpl.
  by destruct (hasOwnershipOfRecord (msg_sender env) recordId s).
Qed.

Lemma updateVaccineRecord_run env recordId newVaccineType newVaccineDate
    newDoseNumber newBatchNumber s :
  execute (updateVaccineRecord env recordId newVaccineType newVaccineDate
             newDoseNumber newBatchNumber) s
  = outcome (updateGuards env recordId s)
      (updateEffect env recordId newVaccineType newVaccineDate newDoseNumber
         newBatchNumber s) s.
Proof.
  unfold updateVaccineRecord, updateGuards, updateEffect, replaceField.
  run_monad. simpl.
  destruct (hasAccessPermission env (msg_sender env) recordId s ||
            (VaccineRecord.authorizedDoctor (getRecord s recordId) =? msg_sender env));
    simpl; [|done].
  destruct (VaccineRecord.isActive (getRecord s recordId)); simpl; [|done].
  destruct (AccessPermission.canUpdate (getPermission s (msg_sender env) recordId) ||
            (VaccineRecord.authorizedDoctor (getRecord s recordId) =? msg_sender env));
    simpl; [|done].
  by destruct (0 <? newVaccineType), (0 <? newVaccineDate),
    (0 <? newDoseNumber), (0 <? newBatchNumber).
Qed.

Lemma deactivateRecord_run env recordId s :
  execute (deactivateRecord env recordId) s
  = outcome (deactivateGuards env recordId s) (deactivate recordId s) s.
Proof.
  unfold deactivateRecord, deactivateGuards. run_monad. simpl.
  by destruct ((VaccineRecord.authorizedDoctor (getRecord s recordId) =? msg_sender env)
               || (msg_sender env =? healthAuthority s)).
Qed.

Lemma verifyVaccineRecord_run env recordId expectedPersonId s :
  execute (verifyVaccineRecord env recordId expectedPersonId) s
  = if hasAccessPermission env (msg_sender env) recordId s
    then (inr (FHE_eq (VaccineRecord.encryptedPersonId (getRecord s recordId))
                 (FHE_asEuint32 expectedPersonId)), s)
    else (inl (Revert "No access permission"), s).
Proof.
  unfold verifyVaccineRecord. run_monad. simpl.
  by destruct (hasAccessPermission env (msg_sender env) recordId s).
Qed.

Lemma verify_dispatch_run env recordId expectedPersonId s :
  execute (verifyVaccineRecord env recordId expectedPersonId ;; mret tt) s
  = outcome (if hasAccessPermission env (msg_sender env) recordId s then None
             else Some (Revert "No access permission")) s s.
Proof.
  unfold verifyVaccineRecord. run_monad. simpl.
  by destruct (hasAccessPermission env (msg_sender env) recordId s).
Qed.

(** ** Reading back the other mappings *)

Lemma getRecord_setRecord recordId r s id :
  getRecord (setRecord recordId r s) id
  = if decide (id = recordId) then r else getRecord s id.
Proof.
  unfold getRecord, setRecord; cbn [vaccineRecords].
  destruct (decide (id = recordId)) as [->|Hne].
  - by rewrite lookup_insert_eq.
  - by rewrite lookup_insert_ne.
Qed.

Lemma getUserRecords_pushUserRecord user recordId s u :
  getUserRecords (pushUserRecord user recordId s) u
  = if decide (u = user) then getUserRecords s u ++ [recordId]
    else getUserRecords s u.
Proof.
  unfold getUserRecords at 1. unfold pushUserRecord; cbn [userRecords].
  destruct (decide (u = user)) as [->|Hne].
  - by rewrite lookup_insert_eq.
  - by rewrite lookup_insert_ne.
Qed.

Lemma isDoctor_setDoctor a b s a' :
  isDoctor (setDoctor a b s) a' = if decide (a' = a) then b else isDoctor s a'.
Proof.
  unfold isDoctor, setDoctor; cbn [authorizedDoctors].
  destruct (decide (a' = a)) as [->|Hne].
  - by rewrite lookup_insert_eq.
  - by rewrite lookup_insert_ne.
Qed.

(** [scanRecords] is list membership. *)
Lemma scanRecords_elem_of records recordId :
  scanRecords records recordId = true ↔ recordId ∈ records.
Proof.
  induction records as [|r rest IH]; simpl.
  - split; [done | by intros ?%not_elem_of_nil].
  - destruct (r =? recordId) eqn:Hr.
    + apply Z.eqb_eq in Hr as ->. split; [intros _; left | done].
    + apply Z.eqb_neq in Hr. rewrite IH, elem_of_cons.
      split; [by right | intros [Heq | Hin]; [congruence | done]].
Qed.

Lemma scanRecords_app records more recordId :
  scanRecords (records ++ more) recordId
  = scanRecords records recordId || scanRecords more recordId.
Proof.
  induction records as [|r rest IH]; simpl; [done|].
  by destruct (r =? recordId).
Qed.

(** *** The record store after each effect *)

Lemma getRecord_allowFive r who s id :
  getRecord (allowFive r who s) id = getRecord s id.
Proof. reflexivity. Qed.

Lemma getRecord_recordEffect env patient personId vaccineType vaccineDate
    doseNumber batchNumber s id :
  getRecord (recordEffect env patient personId vaccineType vaccineDate
               doseNumber batchNumber s) id
  = if decide (id = totalRecords s + 1)
    then newRecord env personId vaccineType vaccineDate doseNumber batchNumber
    else getRecord s id.
Proof.
  transitivity
    (getRecord
       (setRecord (totalRecords s + 1)
          (newRecord env personId vaccineType vaccineDate doseNumber batchNumber)
          (set_totalRecords (totalRecords s + 1) s)) id); [reflexivity|].
  by rewrite getRecord_setRecord.
Qed.

Lemma getUserRecords_recordEffect env patient personId vaccineType vaccineDate
    doseNumber batchNumber s u :
  getUserRecords (recordEffect env patient personId vaccineType vaccineDate
                    doseNumber batchNumber s) u
  = if decide (u = patient) then getUserRecords s u ++ [totalRecords s + 1]
    else getUserRecords s u.
Proof.
  transitivity (getUserRecords (pushUserRecord patient (totalRecords s + 1) s) u);
    [reflexivity | apply getUserRecords_pushUserRecord].
Qed.

Lemma getRecord_grantEffect env accessor recordId canView canUpdate D s id :
  getRecord (grantEffect env accessor recordId canView canUpdate D s) id
  = getRecord s id.
Proof. unfold grantEffect. by destruct canView. Qed.

Lemma getRecord_revokeEffect env accessor recordId s id :
  getRecord (revokeEffect env accessor recordId s) id = getRecord s id.
Proof. reflexivity. Qed.

Lemma getRecord_logEvent e s id : getRecord (logEvent e s) id = getRecord s id.
Proof. reflexivity. Qed.

Lemma getRecord_allowPair h who s id :
  getRecord (allowPair h who s) id = getRecord s id.
Proof. reflexivity. Qed.

Lemma getRecord_updateEffect env recordId newVaccineType newVaccineDate
    newDoseNumber newBatchNumber s id :
  getRecord (updateEffect env recordId newVaccineType newVaccineDate
               newDoseNumber newBatchNumber s) id
  = if decide (id = recordId)
    then updatedRecord newVaccineType newVaccineDate newDoseNumber
           newBatchNumber (getRecord s recordId)
    else getRecord s id.
Proof.
  unfold updateEffect, replaceField, updatedRecord.
  destruct (getRecord s recordId) as [pid vty vda dos bat act ts doc] eqn:Hold.
  destruct (decide (id = recordId)) as [->|Hne];
    destruct (0 <? newVaccineType), (0 <? newVaccineDate),
      (0 <? newDoseNumber), (0 <? newBatchNumber);
    unfold setBatchNumber, setDoseNumber, setVaccineDate, setVaccineType;
    repeat (rewrite ?getRecord_logEvent, ?getRecord_allowPair,
              ?getRecord_setRecord, ?Hold;
            cbn [VaccineRecord.encryptedPersonId VaccineRecord.encryptedVaccineType
                 VaccineRecord.encryptedVaccineDate VaccineRecord.encryptedDoseNumber
                 VaccineRecord.encryptedBatchNumber VaccineRecord.isActive
                 VaccineRecord.timestamp VaccineRecord.authorizedDoctor];
            repeat case_decide; try done).
Qed.

Lemma getRecord_deactivate recordId s id :
  getRecord (deactivate recordId s) id
  = if decide (id = recordId)
    then VaccineRecord.mk
           (VaccineRecord.encryptedPersonId (getRecord s recordId))
           (VaccineRecord.encryptedVaccineType (getRecord s recordId))
           (VaccineRecord.encryptedVaccineDate (getRecord s recordId))
           (VaccineRecord.encryptedDoseNumber (getRecord s recordId))
           (VaccineRecord.encryptedBatchNumber (getRecord s recordId))
           false
           (VaccineRecord.timestamp (getRecord s recordId))
           (VaccineRecord.authorizedDoctor (getRecord s recordId))
    else getRecord s id.
Proof. unfold deactivate. by rewrite getRecord_setRecord. Qed.

(** ** What a single call can change *)

Ltac step_cases c :=
  unfold step; destruct c; cbn [dispatch];
  rewrite ?authorizeDoctor_run, ?revokeDoctor_run, ?recordVaccination_run,
    ?grantAccess_run, ?revokeAccess_run, ?updateVaccineRecord_run,
    ?verify_dispatch_run, ?deactivateRecord_run;
  unfold outcome;
  match goal with
  | |- context [match ?g with Some _ => _ | None => _ end] =>
      destruct g eqn:Hguard
  end;
  cbn [snd].

Ltac open_effects :=
  unfold grantEffect, updateEffect, replaceField;
  repeat match goal with
         | |- context [if ?b then _ else _] => destruct b
         end.

Lemma step_healthAuthority env c s :
  healthAuthority (step env c s) = healthAuthority s.
Proof. step_cases c; try reflexivity; open_effects; reflexivity. Qed.

Lemma step_totalRecords env c s :
  totalRecords (step env c s)
  = match c with
    | RecordVaccination patient _ vaccineType _ doseNumber _ =>
        if passes (recordGuards env patient vaccineType doseNumber s)
        then totalRecords s + 1 else totalRecords s
    | _ => totalRecords s
    end.
Proof.
  step_cases c; cbn [passes]; try reflexivity; open_effects; reflexivity.
Qed.

Lemma step_getUserRecords env c s u :
  getUserRecords (step env c s) u
  = match c with
    | RecordVaccination patient _ vaccineType _ doseNumber _ =>
        if passes (recordGuards env patient vaccineType doseNumber s)
        then if decide (u = patient)
             then getUserRecords s u ++ [totalRecords s + 1]
             else getUserRecords s u
        else getUserRecords s u
    | _ => getUserRecords s u
    end.
Proof.
  step_cases c; cbn [passes]; try reflexivity; try (open_effects; reflexivity).
  unfold recordEffect.
  transitivity (getUserRecords (pushUserRecord patient (totalRecords s + 1) s) u);
    [reflexivity | apply getUserRecords_pushUserRecord].
Qed.

Lemma step_isDoctor env c s a :
  isDoctor (step env c s) a
  = match c with
    | AuthorizeDoctor doctor =>
        if passes (doctorGuards env s) && bool_decide (a = doctor)
        then true else isDoctor s a
    | RevokeDoctor doctor =>
        if passes (doctorGuards env s) && bool_decide (a = doctor)
        then false else isDoctor s a
    | _ => isDoctor s a
    end.
Proof.
  step_cases c; cbn [passes andb]; try reflexivity;
    try (open_effects; reflexivity).
  - transitivity (isDoctor (setDoctor doctor true s) a); [reflexivity|].
    rewrite isDoctor_setDoctor. by repeat case_decide; case_bool_decide.
  - transitivity (isDoctor (setDoctor doctor false s) a); [reflexivity|].
    rewrite isDoctor_setDoctor. by repeat case_decide; case_bool_decide.
Qed.

Lemma step_getRecord env c s id :
  getRecord (step env c s) id
  = match c with
    | RecordVaccination patient personId vaccineType vaccineDate doseNumber
        batchNumber =>
        if passes (recordGuards env patient vaccineType doseNumber s)
           && bool_decide (id = totalRecords s + 1)
        then newRecord env personId vaccineType vaccineDate doseNumber batchNumber
        else getRecord s id
    | UpdateVaccineRecord recordId newVaccineType newVaccineDate newDoseNumber
        newBatchNumber =>
        if passes (updateGuards env recordId s) && bool_decide (id = recordId)
        then updatedRecord newVaccineType newVaccineDate newDoseNumber
               newBatchNumber (getRecord s recordId)
        else getRecord s id
    | DeactivateRecord recordId =>
        if passes (deactivateGuards env recordId s)
        then getRecord (deactivate recordId s) id
        else getRecord s id
    | _ => getRecord s id
    end.
Proof.
  step_cases c; cbn [passes andb]; try reflexivity.
  - rewrite getRecord_recordEffect. by case_decide; case_bool_decide.
  - apply getRecord_grantEffect.
  - rewrite getRecord_updateEffect. by case_decide; case_bool_decide.
Qed.

Lemma getPermission_allowFive r who s u id :
  getPermission (allowFive r who s) u id = getPermission s u id.
Proof. reflexivity. Qed.

Lemma step_getPermission env c s u id :
  getPermission (step env c s) u id
  = match c with
    | RecordVaccination patient _ vaccineType _ doseNumber _ =>
        if passes (recordGuards env patient vaccineType doseNumber s)
           && bool_decide ((u, id) = (patient, totalRecords s + 1))
        then AccessPermission.mk true false (block_timestamp env + 365 * days) true
        else getPermission s u id
    | GrantAccess accessor recordId canView canUpdate durationInDays =>
        if passes (grantGuards env accessor recordId durationInDays s)
           && bool_decide ((u, id) = (accessor, recordId))
        then AccessPermission.mk canView canUpdate
               (block_timestamp env + durationInDays * (1 * days)) true
        else getPermission s u id
    | RevokeAccess accessor recordId =>
        if hasOwnershipOfRecord (msg_sender env) recordId s
           && bool_decide ((u, id) = (accessor, recordId))
        then clearActive (getPermission s u id)
        else getPermission s u id
    | _ => getPermission s u id
    end.
Proof.
  step_cases c; cbn [passes andb]; try reflexivity.
  - unfold recordEffect. rewrite getPermission_logEvent.
    case_bool_decide as Hkey.
    + injection Hkey as -> ->. apply getPermission_setPermission_eq.
    + by rewrite getPermission_setPermission_ne.
  - unfold grantEffect. rewrite getPermission_logEvent.
    assert (Hrow : ∀ st, getPermission st u id = getPermission s u id →
              getPermission
                (setPermission accessor recordId
                   (AccessPermission.mk canView canUpdate
                      (block_timestamp env + durationInDays * (1 * days)) true) st)
                u id
              = if bool_decide ((u, id) = (accessor, recordId))
                then AccessPermission.mk canView canUpdate
                       (block_timestamp env + durationInDays * (1 * days)) true
                else getPermission s u id).
    { intros st Hst. case_bool_decide as Hkey.
      - injection Hkey as -> ->. apply getPermission_setPermission_eq.
      - by rewrite getPermission_setPermission_ne. }
    destruct canView; [rewrite getPermission_allowFive|]; by apply Hrow.
  - by destruct (hasOwnershipOfRecord (msg_sender env) recordId s).
  - destruct (hasOwnershipOfRecord (msg_sender env) recordId s); [|done].
    cbn [andb]. unfold revokeEffect. rewrite getPermission_logEvent.
    case_bool_decide as Hkey.
    + injection Hkey as -> ->. apply getPermission_setPermission_eq.
    + by rewrite getPermission_setPermission_ne.
  - open_effects; reflexivity.
Qed.

Lemma allowed_allowPair h who s :
  allowed s ⊆ allowed (allowPair h who s).
Proof. unfold allowPair; cbn [allowed]. apply union_subseteq_r. Qed.

Lemma allowed_allowFive r who s :
  allowed s ⊆ allowed (allowFive r who s).
Proof.
  unfold allowFive.
  repeat (etrans; [|apply allowed_allowPair]). done.
Qed.

Lemma step_allowed env c s : allowed s ⊆ allowed (step env c s).
Proof.
  step_cases c; try done.
  - unfold recordEffect.
    change (allowed s ⊆
            allowed (allowFive
                       (newRecord env personId vaccineType vaccineDate doseNumber
                          batchNumber) (msg_sender env)
                       (allowFive
                          (newRecord env personId vaccineType vaccineDate
                             doseNumber batchNumber) patient
                          (allowFive
                             (newRecord env personId vaccineType vaccineDate
                                doseNumber batchNumber) (this env) s)))).
    repeat (etrans; [|apply allowed_allowFive]). done.
  - unfold grantEffect. destruct canView; [|done].
    change (allowed s ⊆ allowed (allowFive (getRecord s recordId) accessor s)).
    apply allowed_allowFive.
  - unfold updateEffect, replaceField. cbn [logEvent allowed].
    repeat match goal with
           | |- context [if ?b then _ else _] => destruct b
           end;
      repeat (etrans; [|apply allowed_allowPair]); done.
Qed.

Lemma run_allowed calls s : allowed s ⊆ allowed (run calls s).
Proof.
  revert s. induction calls as [|[env c] rest IH]; intros s; [done|].
  cbn [run]. etrans; [apply step_allowed | apply IH].
Qed.

Lemma allowFive_handles r who s h :
  h ∈ handles r → (h, who) ∈ allowed (allowFive r who s).
Proof.
  unfold handles, allowFive, allowPair; cbn [allowed].
  rewrite !elem_of_cons, !elem_of_union, !elem_of_singleton.
  intros [-> | [-> | [-> | [-> | [-> | Hnil]]]]]; try tauto.
  by apply not_elem_of_nil in Hnil.
Qed.

(** ** Revocation and the sink *)

(** C9. A successful [revokeAccess] clears the [isActive] flag of the row
    [(accessor, recordId)] and keeps its other three fields ([canView],
    [canUpdate] and [expiryTime] are the stored ones); every other
    permission row, every record, the record lists, the counter and the
    doctor list are as before, and the sink's allow-list is untouched (no
    authorization call is made; only the [AccessRevoked] event is logged).
    Consequently a grantee authorized at the sink by an earlier
    [canView = true] grant is still authorized after the revocation: on
    each ciphertext handle of the record when the revocation follows the
    grant at once, and, whatever calls came in between, on each handle the
    record had when the grant was made. *)
Theorem revokeAccess_frame env accessor recordId s s' :
  execute (revokeAccess env accessor recordId) s = (inr tt, s') →
  getPermission s' accessor recordId
  = {| AccessPermission.canView :=
         AccessPermission.canView (getPermission s accessor recordId);
       AccessPermission.canUpdate :=
         AccessPermission.canUpdate (getPermission s accessor recordId);
       AccessPermission.expiryTime :=
         AccessPermission.expiryTime (getPermission s accessor recordId);
       AccessPermission.isActive := false |} ∧
  (∀ u r, (u, r) ≠ (accessor, recordId) →
          getPermission s' u r = getPermission s u r) ∧
  vaccineRecords s' = vaccineRecords s ∧
  userRecords s' = userRecords s ∧
  totalRecords s' = totalRecords s ∧
  authorizedDoctors s' = authorizedDoctors s ∧
  healthAuthority s' = healthAuthority s ∧
  allowed s' = allowed s ∧
  events s' = events s ++ [AccessRevoked (msg_sender env) accessor recordId] ∧
  (∀ genv canUpdate D s0,
     execute (grantAccess genv accessor recordId true canUpdate D) s0 = (inr tt, s) →
     ∀ h, h ∈ handles (getRecord s' recordId) → (h, accessor) ∈ allowed s') ∧
  (∀ genv canUpdate D s0 s1 calls,
     execute (grantAccess genv accessor recordId true canUpdate D) s0
     = (inr tt, s1) →
     s = run calls s1 →
     ∀ h, h ∈ handles (getRecord s0 recordId) → (h, accessor) ∈ allowed s').
Proof.
  rewrite revokeAccess_run. unfold outcome.
  destruct (hasOwnershipOfRecord (msg_sender env) recordId s); [|done].
  intros Hs. injection Hs as <-.
  assert (Hgranted : ∀ genv canUpdate D s0 s1,
            execute (grantAccess genv accessor recordId true canUpdate D) s0
            = (inr tt, s1) →
            getRecord s1 recordId = getRecord s0 recordId ∧
            ∀ h, h ∈ handles (getRecord s0 recordId) → (h, accessor) ∈ allowed s1).
  { intros genv canUpdate D s0 s1. rewrite grantAccess_run. unfold outcome.
    destruct (grantGuards genv accessor recordId D s0); [done|].
    intros Hs1. injection Hs1 as <-.
    split; [apply getRecord_grantEffect|].
    intros h Hh. unfold grantEffect. cbn [logEvent allowed].
    by apply allowFive_handles. }
  split_and!; try reflexivity.
  - unfold revokeEffect. rewrite getPermission_logEvent.
    apply getPermission_setPermission_eq.
  - intros u r Hne. unfold revokeEffect. rewrite getPermission_logEvent.
    by apply getPermission_setPermission_ne.
  - intros genv canUpdate D s0 Hgrant h Hh.
    destruct (Hgranted _ _ _ _ _ Hgrant) as [Hrec Hin].
    rewrite getRecord_revokeEffect, Hrec in Hh.
    exact (Hin h Hh).
  - intros genv canUpdate D s0 s1 calls Hgrant -> h Hh.
    destruct (Hgranted _ _ _ _ _ Hgrant) as [_ Hin].
    change ((h, accessor) ∈ allowed (run calls s1)).
    by apply run_allowed, Hin.
Qed.

(** ** Properties of every sequence of calls *)

(** X1. The health authority is the deployer, for good: after any sequence
    of calls (successful or reverted) from a fresh contract,
    [healthAuthority] is still the [msg.sender] of the constructor. *)
Theorem healthAuthority_is_deployer env0 calls :
  healthAuthority (run calls (constructor env0)) = msg_sender env0.
Proof.
  assert (Hrun : ∀ s, healthAuthority (run calls s) = healthAuthority s).
  { induction calls as [|[env c] rest IH]; intros s; [done|].
    cbn [run]. by rewrite IH, step_healthAuthority. }
  by rewrite Hrun.
Qed.

(** X2. Record ids are handed out in sequence: a call changes
    [totalRecords] only if it is a [recordVaccination] that passes its
    checks, and then by exactly one; over a sequence of calls the counter
    never decreases and grows by at most the number of calls. *)
Theorem totalRecords_sequential env c calls s :
  (totalRecords (step env c s) = totalRecords s ∨
   totalRecords (step env c s) = totalRecords s + 1 ∧
   ∃ patient personId vaccineType vaccineDate doseNumber batchNumber,
     c = RecordVaccination patient personId vaccineType vaccineDate doseNumber
           batchNumber ∧
     ∃ s', execute (recordVaccination env patient personId vaccineType
                      vaccineDate doseNumber batchNumber) s = (inr tt, s')) ∧
  totalRecords s <= totalRecords (run calls s)
                 <= totalRecords s + Z.of_nat (length calls).
Proof.
  split.
  - rewrite step_totalRecords. destruct c; auto.
    destruct (recordGuards env patient vaccineType doseNumber s) eqn:Hg;
      cbn [passes]; [by left|].
    right. split; [done|].
    exists patient, personId, vaccineType, vaccineDate, doseNumber, batchNumber.
    split; [done|]. rewrite recordVaccination_run, Hg. by eexists.
  - revert s. induction calls as [|[env' c'] rest IH]; intros s.
    + cbn [run length]. lia.
    + cbn [run length]. specialize (IH (step env' c' s)).
      assert (totalRecords s <= totalRecords (step env' c' s)
                             <= totalRecords s + 1); [|lia].
      rewrite step_totalRecords. destruct c'; try lia.
      destruct (passes _); lia.
Qed.

Lemma step_existing_record env c s id :
  id <= totalRecords s →
  id <= totalRecords (step env c s) ∧
  VaccineRecord.authorizedDoctor (getRecord (step env c s) id)
  = VaccineRecord.authorizedDoctor (getRecord s id) ∧
  VaccineRecord.timestamp (getRecord (step env c s) id)
  = VaccineRecord.timestamp (getRecord s id) ∧
  VaccineRecord.encryptedPersonId (getRecord (step env c s) id)
  = VaccineRecord.encryptedPersonId (getRecord s id) ∧
  (VaccineRecord.isActive (getRecord s id) = false →
   VaccineRecord.isActive (getRecord (step env c s) id) = false).
Proof.
  intros Hid. split.
  { rewrite step_totalRecords. destruct c; try lia. destruct (passes _); lia. }
  rewrite step_getRecord. destruct c; try done.
  - destruct (passes _); cbn [andb]; [|done].
    case_bool_decide; [lia | done].
  - destruct (passes _); cbn [andb]; [|done].
    case_bool_decide as Hk; [subst id | done]. done.
  - destruct (passes _); [|done].
    rewrite getRecord_deactivate. by case_decide; [subst id|].
Qed.

(** X3. Deactivation is final: a record that exists (its id is at most the
    counter) and is inactive stays inactive through every later sequence of
    calls; there is no way to reactivate it. *)
Theorem deactivated_stays_deactivated calls s id :
  id <= totalRecords s →
  VaccineRecord.isActive (getRecord s id) = false →
  VaccineRecord.isActive (getRecord (run calls s) id) = false.
Proof.
  revert s. induction calls as [|[env c] rest IH]; intros s Hid Hoff; [done|].
  cbn [run]. destruct (step_existing_record env c s id Hid) as (Hid' & _ & _ & _ & Hoff').
  apply IH; auto.
Qed.

(** X4. The creator, the creation time and the encrypted person id of an
    existing record never change, whatever calls follow (updates replace
    only the other four fields, and ids are not reused). *)
Theorem record_identity_immutable calls s id :
  id <= totalRecords s →
  VaccineRecord.authorizedDoctor (getRecord (run calls s) id)
  = VaccineRecord.authorizedDoctor (getRecord s id) ∧
  VaccineRecord.timestamp (getRecord (run calls s) id)
  = VaccineRecord.timestamp (getRecord s id) ∧
  VaccineRecord.encryptedPersonId (getRecord (run calls s) id)
  = VaccineRecord.encryptedPersonId (getRecord s id).
Proof.
  revert s. induction calls as [|[env c] rest IH]; intros s Hid; [done|].
  cbn [run].
  destruct (step_existing_record env c s id Hid) as (Hid' & Hdoc & Hts & Hpid & _).
  destruct (IH _ Hid') as (Hdoc' & Hts' & Hpid').
  split_and!; congruence.
Qed.

Lemma step_ownership env c s u id :
  id <= totalRecords s →
  hasOwnershipOfRecord u id (step env c s) = hasOwnershipOfRecord u id s.
Proof.
  intros Hid. unfold hasOwnershipOfRecord. rewrite step_getUserRecords.
  destruct c; try done.
  destruct (passes _); [|done]. case_decide; [|done].
  rewrite scanRecords_app. cbn [scanRecords].
  destruct (totalRecords s + 1 =? id) eqn:Hnew; [apply Z.eqb_eq in Hnew; lia|].
  by rewrite orb_false_r.
Qed.

(** X5. Ownership is assigned once: for an existing record id the answer
    of [hasOwnershipOfRecord] is the same for every address after any
    sequence of calls. No call transfers, adds or removes an owner. *)
Theorem ownership_immutable calls s u id :
  id <= totalRecords s →
  hasOwnershipOfRecord u id (run calls s) = hasOwnershipOfRecord u id s.
Proof.
  revert s. induction calls as [|[env c] rest IH]; intros s Hid; [done|].
  cbn [run]. rewrite IH.
  - by apply step_ownership.
  - by apply step_existing_record.
Qed.

(** ** The storage invariant *)

Lemma recordGuards_None env patient vaccineType doseNumber s :
  recordGuards env patient vaccineType doseNumber s = None ↔
  isDoctor s (msg_sender env) = true ∧ patient ≠ 0 ∧
  1 <= vaccineType <= 10 ∧ 1 <= doseNumber <= 5 ∧
  totalRecords s + 1 <= max_uint256 ∧
  block_timestamp env + 365 * 86400 <= max_uint256.
Proof.
  unfold recordGuards, days.
  destruct (isDoctor s (msg_sender env)); cbn [negb]; [|intuition congruence].
  destruct (patient =? 0) eqn:Hp;
    [apply Z.eqb_eq in Hp; intuition congruence | apply Z.eqb_neq in Hp].
  destruct (0 <? vaccineType) eqn:Hv1, (vaccineType <=? 10) eqn:Hv2;
    cbn [andb negb];
    rewrite ?Z.ltb_lt, ?Z.ltb_ge, ?Z.leb_le, ?Z.leb_gt in Hv1, Hv2;
    try (split; [done | intros; lia]).
  destruct (0 <? doseNumber) eqn:Hd1, (doseNumber <=? 5) eqn:Hd2;
    cbn [andb negb];
    rewrite ?Z.ltb_lt, ?Z.ltb_ge, ?Z.leb_le, ?Z.leb_gt in Hd1, Hd2;
    try (split; [done | intros; lia]).
  destruct (totalRecords s + 1 <=? max_uint256) eqn:Ht; cbn [negb];
    rewrite ?Z.leb_le, ?Z.leb_gt in Ht; [|split; [done | intros; lia]].
  destruct (block_timestamp env + 365 * 86400 <=? max_uint256) eqn:He;
    cbn [negb]; rewrite ?Z.leb_le, ?Z.leb_gt in He;
    [|split; [done | intros; lia]].
  split; [intros _; split_and!; (done || lia) | done].
Qed.

Lemma grantGuards_None env accessor recordId D s :
  grantGuards env accessor recordId D s = None ↔
  VaccineRecord.isActive (getRecord s recordId) = true ∧
  hasOwnershipOfRecord (msg_sender env) recordId s = true ∧
  accessor ≠ 0 ∧
  D * 86400 <= max_uint256 ∧
  block_timestamp env + D * 86400 <= max_uint256.
Proof.
  unfold grantGuards, days. replace (D * (1 * 86400)) with (D * 86400) by lia.
  destruct (VaccineRecord.isActive (getRecord s recordId)); cbn [negb];
    [|intuition congruence].
  destruct (hasOwnershipOfRecord (msg_sender env) recordId s); cbn [negb];
    [|intuition congruence].
  destruct (accessor =? 0) eqn:Ha;
    [apply Z.eqb_eq in Ha; intuition congruence | apply Z.eqb_neq in Ha].
  destruct (D * 86400 <=? max_uint256) eqn:Hd; cbn [negb];
    rewrite ?Z.leb_le, ?Z.leb_gt in Hd; [|split; [done | intros; lia]].
  destruct (block_timestamp env + D * 86400 <=? max_uint256) eqn:He;
    cbn [negb]; rewrite ?Z.leb_le, ?Z.leb_gt in He;
    [|split; [done | intros; lia]].
  split; [intros _; split_and!; (done || lia) | done].
Qed.

Lemma updateGuards_None env recordId s :
  updateGuards env recordId s = None ↔
  VaccineRecord.isActive (getRecord s recordId) = true ∧
  (VaccineRecord.authorizedDoctor (getRecord s recordId) = msg_sender env ∨
   hasAccessPermission env (msg_sender env) recordId s = true ∧
   AccessPermission.canUpdate (getPermission s (msg_sender env) recordId) = true).
Proof.
  unfold updateGuards.
  destruct (VaccineRecord.authorizedDoctor (getRecord s recordId) =? msg_sender env)
    eqn:Hdoc; [apply Z.eqb_eq in Hdoc | apply Z.eqb_neq in Hdoc].
  - rewrite !orb_true_r. cbn [negb].
    destruct (VaccineRecord.isActive (getRecord s recordId)); cbn [negb];
      intuition congruence.
  - rewrite !orb_false_r.
    destruct (hasAccessPermission env (msg_sender env) recordId s); cbn [negb];
      [|intuition congruence].
    destruct (VaccineRecord.isActive (getRecord s recordId)); cbn [negb];
      [|intuition congruence].
    destruct (AccessPermission.canUpdate
                (getPermission s (msg_sender env) recordId)); cbn [negb];
      intuition congruence.
Qed.

Lemma wellFormed_constructor env0 : wellFormed (constructor env0).
Proof.
  split; unfold constructor, getRecord, getPermission, getUserRecords;
    cbn [totalRecords vaccineRecords accessPermissions userRecords].
  - unfold max_uint256. lia.
  - intros id _. by rewrite lookup_empty.
  - intros u id _. by rewrite !lookup_empty.
  - intros u id. rewrite lookup_empty. by intros ?%not_elem_of_nil.
  - intros u v id. rewrite lookup_empty. by intros ?%not_elem_of_nil.
  - intros id ?. lia.
Qed.

Lemma active_in_use s id :
  wellFormed s → VaccineRecord.isActive (getRecord s id) = true →
  1 <= id <= totalRecords s.
Proof.
  intros Hwf Hact.
  destruct (decide (1 <= id <= totalRecords s)) as [|Hout]; [done|].
  by rewrite (wf_record_unused s Hwf id Hout) in Hact.
Qed.

Lemma owned_in_use s u id :
  wellFormed s → hasOwnershipOfRecord u id s = true →
  1 <= id <= totalRecords s.
Proof.
  intros Hwf Hown. apply (wf_owned_in_use s Hwf u).
  by apply scanRecords_elem_of.
Qed.

Lemma wellFormed_step env c s : wellFormed s → wellFormed (step env c s).
Proof.
  intros Hwf. pose proof Hwf as [Hcnt Hrec Hperm Hin Huniq Hex].
  assert (Htot : totalRecords s <= totalRecords (step env c s)).
  { rewrite step_totalRecords. destruct c; try lia. destruct (passes _); lia. }
  split.
  - (* the counter stays a uint256 *)
    rewrite step_totalRecords. destruct c; try done.
    destruct (recordGuards env patient vaccineType doseNumber s) eqn:Hg;
      cbn [passes]; [done|].
    apply recordGuards_None in Hg. lia.
  - (* unused ids hold the zero record *)
    intros id Hout. rewrite step_getRecord.
    assert (Hout0 : ¬ (1 <= id <= totalRecords s)) by lia.
    destruct c; try (by apply Hrec).
    + rewrite step_totalRecords in Hout.
      destruct (passes _); cbn [andb]; [|by apply Hrec].
      case_bool_decide; [lia | by apply Hrec].
    + destruct (updateGuards env recordId s) eqn:Hg; cbn [passes andb];
        [by apply Hrec|].
      case_bool_decide as Hk; [subst id | by apply Hrec].
      apply updateGuards_None in Hg as [Hact _].
      apply (active_in_use s _ Hwf) in Hact. lia.
    + destruct (passes _); [|by apply Hrec].
      rewrite getRecord_deactivate. case_decide as Hk; [subst id | by apply Hrec].
      by rewrite (Hrec _ Hout0).
  - (* unused ids have no permission rows *)
    intros u id Hout. rewrite step_getPermission.
    assert (Hout0 : ¬ (1 <= id <= totalRecords s)) by lia.
    destruct c; try (by apply Hperm).
    + rewrite step_totalRecords in Hout.
      destruct (passes _); cbn [andb]; [|by apply Hperm].
      case_bool_decide as Hk; [|by apply Hperm]. injection Hk as -> ->. lia.
    + destruct (grantGuards env accessor recordId durationInDays s) eqn:Hg;
        cbn [passes andb]; [by apply Hperm|].
      case_bool_decide as Hk; [|by apply Hperm]. injection Hk as -> ->.
      apply grantGuards_None in Hg as (Hact & _).
      apply (active_in_use s _ Hwf) in Hact. lia.
    + destruct (hasOwnershipOfRecord (msg_sender env) recordId s) eqn:Hown;
        cbn [andb]; [|by apply Hperm].
      case_bool_decide as Hk; [|by apply Hperm]. injection Hk as -> ->.
      apply (owned_in_use s _ _ Hwf) in Hown. lia.
  - (* owned ids are in use *)
    intros u id. rewrite step_getUserRecords.
    destruct c; try (intros Hown; apply Hin in Hown; lia).
    rewrite step_totalRecords.
    destruct (passes _); [|intros Hown; apply Hin in Hown; lia].
    case_decide; [|intros Hown; apply Hin in Hown; lia].
    rewrite elem_of_app, list_elem_of_singleton.
    intros [Hown | ->]; [apply Hin in Hown|]; lia.
  - (* at most one owner *)
    intros u v id. rewrite !step_getUserRecords.
    destruct c; try apply Huniq.
    destruct (passes _); [|apply Huniq].
    repeat case_decide; subst; try done;
      rewrite ?elem_of_app, ?list_elem_of_singleton.
    + intros [Hu | ->] Hv; [by apply (Huniq _ _ id)|].
      apply Hin in Hv. lia.
    + intros Hu [Hv | ->]; [by apply (Huniq _ _ id)|].
      apply Hin in Hu. lia.
    + apply Huniq.
  - (* at least one owner *)
    intros id Hid. rewrite step_totalRecords in Hid.
    assert (Hold : 1 <= id <= totalRecords s →
              ∃ u, u ≠ 0 ∧ id ∈ getUserRecords (step env c s) u).
    { intros Hid0. destruct (Hex id Hid0) as (u & Hu & Hown).
      exists u. split; [done|]. rewrite step_getUserRecords.
      destruct c; try done. destruct (passes _); [|done].
      case_decide; [|done]. apply elem_of_app. by left. }
    destruct c; try (by apply Hold).
    destruct (recordGuards env patient vaccineType doseNumber s) eqn:Hg;
      cbn [passes] in Hid; [by apply Hold|].
    destruct (decide (id = totalRecords s + 1)) as [->|Hne];
      [|apply Hold; lia].
    pose proof Hg as Hg0. apply recordGuards_None in Hg0 as (_ & Hpat & _).
    exists patient. split; [done|]. rewrite step_getUserRecords, Hg.
    cbn [passes]. rewrite decide_True by done. apply elem_of_app. right. by left.
Qed.

Lemma wellFormed_run calls s : wellFormed s → wellFormed (run calls s).
Proof.
  revert s. induction calls as [|[env c] rest IH]; intros s Hwf; [done|].
  cbn [run]. by apply IH, wellFormed_step.
Qed.

Lemma step_execute env c s r s' :
  execute (dispatch env c) s = (r, s') → step env c s = s'.
Proof. unfold step. by intros ->. Qed.

(** X6. In every state reached from a fresh contract, ownership is
    well-defined: an address that owns a record id is not the zero address
    and the id is one that was handed out ([1 .. totalRecords]); and every id
    handed out has exactly one owner. *)
Theorem every_record_has_one_owner env0 calls :
  let s := run calls (constructor env0) in
  (∀ u id, hasOwnershipOfRecord u id s = true →
           u ≠ 0 ∧ 1 <= id <= totalRecords s) ∧
  (∀ id, 1 <= id <= totalRecords s →
         ∃ u, hasOwnershipOfRecord u id s = true ∧
              ∀ v, hasOwnershipOfRecord v id s = true → v = u).
Proof.
  intros s.
  assert (Hwf : wellFormed s) by apply wellFormed_run, wellFormed_constructor.
  split.
  - intros u id Hown. pose proof (owned_in_use s u id Hwf Hown) as Hid.
    split; [|done].
    destruct (wf_owner_exists s Hwf id Hid) as (v & Hv & Hin).
    apply scanRecords_elem_of in Hown.
    by rewrite (wf_owner_unique s Hwf u v id Hown Hin).
  - intros id Hid. destruct (wf_owner_exists s Hwf id Hid) as (u & _ & Hin).
    exists u. split; [by apply scanRecords_elem_of|].
    intros v Hv%scanRecords_elem_of. by apply (wf_owner_unique s Hwf v u id).
Qed.

(** X7. A freshly created record is private to its patient: in every state
    reached from a fresh contract, right after a successful
    [recordVaccination] no address other than the patient owns the new id,
    and no address other than the patient is an effective viewer of it at any
    time (no grant for the id can have been left over from before). *)
Theorem fresh_record_private env0 calls env patient personId vaccineType
    vaccineDate doseNumber batchNumber s' :
  execute (recordVaccination env patient personId vaccineType vaccineDate
             doseNumber batchNumber) (run calls (constructor env0))
  = (inr tt, s') →
  ∀ u, u ≠ patient →
       hasOwnershipOfRecord u (totalRecords s') s' = false ∧
       ∀ env', hasAccessPermission env' u (totalRecords s') s' = false.
Proof.
  set (s := run calls (constructor env0)). intros Hrun u Hu.
  assert (Hwf : wellFormed s) by apply wellFormed_run, wellFormed_constructor.
  pose proof Hrun as Hg. rewrite recordVaccination_run in Hg.
  destruct (recordGuards env patient vaccineType doseNumber s) eqn:Hguard;
    [done|]. clear Hg.
  apply (step_execute env (RecordVaccination patient personId vaccineType
           vaccineDate doseNumber batchNumber)) in Hrun. subst s'.
  rewrite step_totalRecords, Hguard. cbn [passes].
  assert (Hnew : ¬ (1 <= totalRecords s + 1 <= totalRecords s)) by lia.
  split.
  - unfold hasOwnershipOfRecord. rewrite step_getUserRecords, Hguard.
    cbn [passes]. rewrite decide_False by done.
    apply not_true_is_false. intros Hown%scanRecords_elem_of.
    by apply (wf_owned_in_use s Hwf) in Hown.
  - intros env'. rewrite hasAccessPermission_row, step_getPermission, Hguard.
    cbn [passes andb]. rewrite bool_decide_eq_false_2 by congruence.
    by rewrite (wf_permission_unused s Hwf u _ Hnew).
Qed.

(** X8. A permission row changes only at the hands of the record's owner,
    or when the record is created: if a call changes the stored row of
    [(u, id)], the call is a [grantAccess] or [revokeAccess] for exactly that
    row sent by an address that owns [id], or it is the [recordVaccination]
    by an authorized doctor that creates [id] for patient [u]. *)
Theorem permission_changes_only_by_owner env c s u id :
  getPermission (step env c s) u id ≠ getPermission s u id →
  (∃ canView canUpdate D,
     c = GrantAccess u id canView canUpdate D ∧
     hasOwnershipOfRecord (msg_sender env) id s = true ∧
     VaccineRecord.isActive (getRecord s id) = true) ∨
  (c = RevokeAccess u id ∧ hasOwnershipOfRecord (msg_sender env) id s = true) ∨
  (∃ personId vaccineType vaccineDate doseNumber batchNumber,
     c = RecordVaccination u personId vaccineType vaccineDate doseNumber
           batchNumber ∧
     id = totalRecords s + 1 ∧ isDoctor s (msg_sender env) = true).
Proof.
  rewrite step_getPermission. destruct c; try done.
  - destruct (recordGuards env patient vaccineType doseNumber s) eqn:Hg;
      cbn [passes andb]; [done|].
    case_bool_decide as Hk; [|done]. injection Hk as -> ->. intros _.
    right. right. apply recordGuards_None in Hg as (Hdoc & _).
    by repeat eexists.
  - destruct (grantGuards env accessor recordId durationInDays s) eqn:Hg;
      cbn [passes andb]; [done|].
    case_bool_decide as Hk; [|done]. injection Hk as -> ->. intros _.
    left. apply grantGuards_None in Hg as (Hact & Hown & _).
    by repeat eexists.
  - destruct (hasOwnershipOfRecord (msg_sender env) recordId s) eqn:Hown;
      cbn [andb]; [|done].
    case_bool_decide as Hk; [|done]. injection Hk as -> ->. intros _.
    right. by left.
Qed.

(** X9. The list of authorized doctors changes only at the hands of the
    health authority: if a call changes the flag of address [a], the sender
    is the health authority and the call is [authorizeDoctor a] or
    [revokeDoctor a]. *)
Theorem doctor_list_changes_only_by_authority env c s a :
  isDoctor (step env c s) a ≠ isDoctor s a →
  msg_sender env = healthAuthority s ∧
  (c = AuthorizeDoctor a ∨ c = RevokeDoctor a).
Proof.
  rewrite step_isDoctor. unfold doctorGuards.
  destruct c; try done;
    (destruct (msg_sender env =? healthAuthority s) eqn:Hauth;
     cbn [passes andb]; [apply Z.eqb_eq in Hauth | done];
     case_bool_decide as Hk; [subst | done]; auto).
Qed.

(** X10. Access that is lost stays lost until the owner grants again: if
    [u] is not an effective viewer of an existing record at some time, then
    after any sequence of calls that contains no [grantAccess] for that row,
    [u] is not an effective viewer at any later time either. Revocation and
    expiry are not undone by any other call or by the passing of time. *)
Theorem lost_access_needs_new_grant calls s env env' u id :
  id <= totalRecords s →
  hasAccessPermission env u id s = false →
  block_timestamp env <= block_timestamp env' →
  Forall (λ ec : Env * Call,
            ∀ canView canUpdate D, ec.2 ≠ GrantAccess u id canView canUpdate D)
         calls →
  hasAccessPermission env' u id (run calls s) = false.
Proof.
  intros Hid Hlost Hnow Hcalls.
  assert (Hlater : ∀ st, hasAccessPermission env u id st = false →
                         hasAccessPermission env' u id st = false).
  { intros st. rewrite !hasAccessPermission_row.
    destruct (AccessPermission.isActive _), (AccessPermission.canView _);
      cbn [andb]; try done.
    rewrite !Z.leb_gt. lia. }
  apply Hlater. clear Hlater Hnow env'.
  revert s Hid Hlost. induction Hcalls as [|[e c] rest Hc _ IH]; intros s Hid Hlost;
    [done|].
  cbn [run]. apply IH; [by apply step_existing_record|].
  rewrite hasAccessPermission_row, step_getPermission.
  rewrite hasAccessPermission_row in Hlost. cbn [snd] in Hc.
  destruct c; try done.
  - destruct (passes _); cbn [andb]; [|done].
    case_bool_decide as Hk; [|done]. injection Hk as -> ->. lia.
  - destruct (passes _); cbn [andb]; [|done].
    case_bool_decide as Hk; [|done]. injection Hk as -> ->.
    by destruct (Hc canView canUpdate durationInDays).
  - destruct (hasOwnershipOfRecord _ _ _); cbn [andb]; [|done].
    by case_bool_decide.
Qed.

(** ** Doctor management *)

(** X11. Only the health authority manages the doctor list: for any other
    sender both [authorizeDoctor] and [revokeDoctor] revert with "Not
    authorized health authority" (a not-authorized error) and change
    nothing. *)
Theorem only_authority_manages_doctors env doctor s :
  msg_sender env ≠ healthAuthority s →
  execute (authorizeDoctor env doctor) s
  = (inl (Revert "Not authorized health authority"), s) ∧
  execute (revokeDoctor env doctor) s
  = (inl (Revert "Not authorized health authority"), s) ∧
  error_kind (Revert "Not authorized health authority") = Some NotAuthorized.
Proof.
  intros Hne%Z.eqb_neq.
  rewrite authorizeDoctor_run, revokeDoctor_run. unfold doctorGuards.
  by rewrite Hne.
Qed.

(** X12. Sent by the health authority, [authorizeDoctor d] and
    [revokeDoctor d] always succeed and set the flag of [d] to true,
    respectively false, whatever it was (so each is idempotent and each
    undoes the other); no other address's flag changes, and the counter, the
    records, the permission table and the record lists are untouched.
    With the flag false, [recordVaccination] sent by [d] reverts with "Not
    an authorized doctor". *)
Theorem authority_manages_doctors env doctor s :
  msg_sender env = healthAuthority s →
  ∃ s1 s2,
    execute (authorizeDoctor env doctor) s = (inr tt, s1) ∧
    execute (revokeDoctor env doctor) s = (inr tt, s2) ∧
    isDoctor s1 doctor = true ∧ isDoctor s2 doctor = false ∧
    (∀ a, a ≠ doctor → isDoctor s1 a = isDoctor s a ∧ isDoctor s2 a = isDoctor s a) ∧
    (∀ st, st = s1 ∨ st = s2 →
       totalRecords st = totalRecords s ∧
       vaccineRecords st = vaccineRecords s ∧
       accessPermissions st = accessPermissions s ∧
       userRecords st = userRecords s ∧
       healthAuthority st = healthAuthority s) ∧
    (∀ env' patient personId vaccineType vaccineDate doseNumber batchNumber,
       msg_sender env' = doctor →
       execute (recordVaccination env' patient personId vaccineType vaccineDate
                  doseNumber batchNumber) s2
       = (inl (Revert "Not an authorized doctor"), s2)).
Proof.
  intros Hauth%Z.eqb_eq.
  exists (logEvent (DoctorAuthorized doctor) (setDoctor doctor true s)),
         (logEvent (DoctorRevoked doctor) (setDoctor doctor false s)).
  rewrite authorizeDoctor_run, revokeDoctor_run. unfold doctorGuards.
  rewrite Hauth. cbn [outcome].
  assert (H1 : ∀ b a, isDoctor (setDoctor doctor b s) a
                      = if decide (a = doctor) then b else isDoctor s a)
    by (intros; apply isDoctor_setDoctor).
  split_and!; try done.
  - change (isDoctor (setDoctor doctor true s) doctor = true).
    rewrite H1. by rewrite decide_True.
  - change (isDoctor (setDoctor doctor false s) doctor = false).
    rewrite H1. by rewrite decide_True.
  - intros a Ha.
    change (isDoctor (setDoctor doctor true s) a = isDoctor s a ∧
            isDoctor (setDoctor doctor false s) a = isDoctor s a).
    rewrite !H1. by destruct (decide (a = doctor)).
  - by intros st [-> | ->].
  - intros env' patient personId vaccineType vaccineDate doseNumber batchNumber <-.
    rewrite recordVaccination_run. unfold recordGuards.
    change (isDoctor (logEvent ?e ?x) ?a) with (isDoctor x a).
    rewrite H1. by rewrite decide_True.
Qed.

(** X13. Revoking a doctor's authorization takes away the right to create
    records but not the creator's rights on records already created: on
    every active record whose stored creator is the revoked doctor, that
    doctor's [updateVaccineRecord] and [deactivateRecord] still succeed. *)
Theorem revoked_doctor_keeps_creator_rights env doctor s s' env' recordId
    newVaccineType newVaccineDate newDoseNumber newBatchNumber :
  execute (revokeDoctor env doctor) s = (inr tt, s') →
  VaccineRecord.isActive (getRecord s recordId) = true →
  VaccineRecord.authorizedDoctor (getRecord s recordId) = doctor →
  msg_sender env' = doctor →
  isDoctor s' doctor = false ∧
  (∃ s'', execute (updateVaccineRecord env' recordId newVaccineType
                     newVaccineDate newDoseNumber newBatchNumber) s'
          = (inr tt, s'')) ∧
  (∃ s'', execute (deactivateRecord env' recordId) s' = (inr tt, s'')).
Proof.
  intros Hrun Hact Hdoc Hsender.
  rewrite revokeDoctor_run in Hrun. unfold outcome in Hrun.
  destruct (doctorGuards env s); [done|]. injection Hrun as <-.
  split_and!.
  - change (isDoctor (setDoctor doctor false s) doctor = false).
    rewrite isDoctor_setDoctor. by rewrite decide_True.
  - rewrite updateVaccineRecord_run.
    assert (Hg : updateGuards env' recordId
                   (logEvent (DoctorRevoked doctor) (setDoctor doctor false s))
                 = None).
    { apply updateGuards_None.
      change (getRecord (logEvent ?e (setDoctor ?a ?b ?x)) ?i) with (getRecord x i).
      split; [exact Hact | left; congruence]. }
    rewrite Hg. cbn [outcome]. by eexists.
  - rewrite deactivateRecord_run. unfold deactivateGuards.
    change (getRecord (logEvent ?e (setDoctor ?a ?b ?x)) ?i) with (getRecord x i).
    rewrite Hdoc, Hsender, Z.eqb_refl. cbn [orb outcome]. by eexists.
Qed.

(** ** Grants *)

(** X14. [grantAccess] succeeds exactly when the record is active, the
    sender owns the record, the accessor is not the zero address, and the
    expiry [now + durationInDays * 86400] (and the product itself) fits a
    [uint256]. The flags [canView] and [canUpdate] play no part: any
    combination is accepted. *)
Theorem grantAccess_succeeds_iff env accessor recordId canView canUpdate D s :
  (∃ s', execute (grantAccess env accessor recordId canView canUpdate D) s
         = (inr tt, s')) ↔
  VaccineRecord.isActive (getRecord s recordId) = true ∧
  hasOwnershipOfRecord (msg_sender env) recordId s = true ∧
  accessor ≠ 0 ∧
  D * 86400 <= max_uint256 ∧
  block_timestamp env + D * 86400 <= max_uint256.
Proof.
  rewrite <- grantGuards_None, grantAccess_run. unfold outcome.
  destruct (grantGuards env accessor recordId D s).
  - split; [by intros [? ?] | done].
  - split; [done | by eexists].
Qed.


(** X16. What a successful [grantAccess] touches: the one permission row,
    which becomes the granted one (every other row is kept), the event log
    and, only when [canView] is set, the sink's allow-list, which gains
    exactly the accessor's authorization on the five handles of the record.
    The records, the counter, the record lists, the doctor list and the
    health authority are unchanged. *)
Theorem grantAccess_frame env accessor recordId canView canUpdate D s s' :
  execute (grantAccess env accessor recordId canView canUpdate D) s = (inr tt, s') →
  getPermission s' accessor recordId
  = {| AccessPermission.canView := canView;
       AccessPermission.canUpdate := canUpdate;
       AccessPermission.expiryTime := block_timestamp env + D * 86400;
       AccessPermission.isActive := true |} ∧
  (∀ u r, (u, r) ≠ (accessor, recordId) →
          getPermission s' u r = getPermission s u r) ∧
  allowed s'
  = (if canView
     then list_to_set ((λ h, (h, accessor)) <$> handles (getRecord s recordId))
          ∪ allowed s
     else allowed s) ∧
  vaccineRecords s' = vaccineRecords s ∧
  totalRecords s' = totalRecords s ∧
  userRecords s' = userRecords s ∧
  authorizedDoctors s' = authorizedDoctors s ∧
  healthAuthority s' = healthAuthority s ∧
  events s' = events s ++ [AccessGranted (msg_sender env) accessor recordId].
Proof.
  rewrite grantAccess_run. unfold outcome.
  destruct (grantGuards env accessor recordId D s); [done|].
  intros Hs. injection Hs as <-. unfold grantEffect.
  replace (D * (1 * days)) with (D * 86400) by (unfold days; lia).
  destruct canView; split_and!; try reflexivity.
  - rewrite getPermission_logEvent, getPermission_allowFive.
    apply getPermission_setPermission_eq.
  - intros u r Hne. rewrite getPermission_logEvent, getPermission_allowFive.
    by apply getPermission_setPermission_ne.
  - unfold allowFive, allowPair, handles; cbn [allowed logEvent setPermission].
    cbn [fmap list_fmap list_to_set foldr].
    apply set_eq. intros x. rewrite !elem_of_union, !elem_of_singleton.
    rewrite elem_of_empty. tauto.
  - rewrite getPermission_logEvent. apply getPermission_setPermission_eq.
  - intros u r Hne. rewrite getPermission_logEvent.
    by apply getPermission_setPermission_ne.
Qed.

(** X17. Revocation is not terminal for the grantee: after the owner has
    revoked a row, the owner's next [grantAccess] for the same row succeeds
    under the same conditions as before and stores a live row, so the
    grantee is an effective viewer again (when [canView] is set and the
    duration is not negative). *)
Theorem regrant_after_revoke env env' accessor recordId canView canUpdate D s s1 :
  execute (revokeAccess env accessor recordId) s = (inr tt, s1) →
  VaccineRecord.isActive (getRecord s recordId) = true →
  hasOwnershipOfRecord (msg_sender env') recordId s = true →
  accessor ≠ 0 →
  0 <= D →
  0 <= block_timestamp env' →
  block_timestamp env' + D * 86400 <= max_uint256 →
  ∃ s2,
    execute (grantAccess env' accessor recordId canView canUpdate D) s1
    = (inr tt, s2) ∧
    getPermission s2 accessor recordId
    = AccessPermission.mk canView canUpdate (block_timestamp env' + D * 86400) true ∧
    hasAccessPermission env' accessor recordId s2 = canView.
Proof.
  intros Hrev Hact Hown Hacc HD Hnow Hmax.
  assert (Hg : grantGuards env' accessor recordId D s = None).
  { apply grantGuards_None. split_and!; try done. lia. }
  rewrite revokeAccess_run in Hrev. unfold outcome in Hrev.
  destruct (hasOwnershipOfRecord (msg_sender env) recordId s); [|done].
  injection Hrev as <-.
  assert (Hg1 : grantGuards env' accessor recordId D
                  (revokeEffect env accessor recordId s) = None) by exact Hg.
  exists (grantEffect env' accessor recordId canView canUpdate D
            (revokeEffect env accessor recordId s)).
  rewrite grantAccess_run, Hg1. cbn [outcome].
  assert (Hrow : getPermission
                   (grantEffect env' accessor recordId canView canUpdate D
                      (revokeEffect env accessor recordId s)) accessor recordId
                 = AccessPermission.mk canView canUpdate
                     (block_timestamp env' + D * 86400) true).
  { unfold grantEffect. rewrite getPermission_logEvent.
    replace (D * (1 * days)) with (D * 86400) by (unfold days; lia).
    destruct canView; [rewrite getPermission_allowFive|];
      apply getPermission_setPermission_eq. }
  split_and!; [done | exact Hrow |].
  rewrite hasAccessPermission_row, Hrow. cbn.
  rewrite (proj2 (Z.leb_le _ _)) by lia. by destruct canView.
Qed.

(** X18. Revocation is idempotent: a second [revokeAccess] for the same row
    by the same owner succeeds too and leaves every permission row, every
    record, the counter, the record lists and the sink's allow-list exactly
    as the first one left them (only a second event is logged). *)
Theorem revoke_twice env env' accessor recordId s s1 :
  execute (revokeAccess env accessor recordId) s = (inr tt, s1) →
  msg_sender env' = msg_sender env →
  ∃ s2,
    execute (revokeAccess env' accessor recordId) s1 = (inr tt, s2) ∧
    (∀ u id, getPermission s2 u id = getPermission s1 u id) ∧
    vaccineRecords s2 = vaccineRecords s1 ∧
    totalRecords s2 = totalRecords s1 ∧
    userRecords s2 = userRecords s1 ∧
    allowed s2 = allowed s1.
Proof.
  intros Hrev Hsender.
  rewrite revokeAccess_run in Hrev. unfold outcome in Hrev.
  destruct (hasOwnershipOfRecord (msg_sender env) recordId s) eqn:Hown; [|done].
  injection Hrev as <-.
  exists (revokeEffect env' accessor recordId (revokeEffect env accessor recordId s)).
  rewrite revokeAccess_run.
  change (hasOwnershipOfRecord (msg_sender env') recordId
            (revokeEffect env accessor recordId s))
    with (hasOwnershipOfRecord (msg_sender env') recordId s).
  rewrite Hsender, Hown. cbn [outcome].
  split_and!; try reflexivity.
  intros u id. unfold revokeEffect at 1. rewrite getPermission_logEvent.
  destruct (decide ((u, id) = (accessor, recordId))) as [Hk | Hk].
  - injection Hk as -> ->. rewrite getPermission_setPermission_eq.
    unfold revokeEffect. rewrite getPermission_logEvent,
      getPermission_setPermission_eq. reflexivity.
  - by rewrite getPermission_setPermission_ne.
Qed.

(** ** Record creation *)

(** X19. [recordVaccination] succeeds exactly when the sender is an
    authorized doctor, the patient is not the zero address, the vaccine type
    is in [1,10], the dose number is in [1,5], and neither the counter nor
    the owner grant's expiry [now + 365 days] overflows a [uint256]. The
    person id, the date and the batch number are not validated. *)
Theorem recordVaccination_succeeds_iff env patient personId vaccineType
    vaccineDate doseNumber batchNumber s :
  (∃ s', execute (recordVaccination env patient personId vaccineType vaccineDate
                    doseNumber batchNumber) s = (inr tt, s')) ↔
  isDoctor s (msg_sender env) = true ∧ patient ≠ 0 ∧
  1 <= vaccineType <= 10 ∧ 1 <= doseNumber <= 5 ∧
  totalRecords s + 1 <= max_uint256 ∧
  block_timestamp env + 365 * 86400 <= max_uint256.
Proof.
  rewrite <- recordGuards_None, recordVaccination_run. unfold outcome.
  destruct (recordGuards env patient vaccineType doseNumber s).
  - split; [by intros [? ?] | done].
  - split; [done | by eexists].
Qed.

(** X20. What a successful [recordVaccination] stores: under the new id
    [totalRecords + 1] an active record stamped with the sender as creator
    and the block time as creation time, holding the five encrypted fields;
    the id is appended to the patient's record list, so the patient owns it.
    Every other record, every other address's list, the doctor list and the
    health authority are unchanged. *)
Theorem recordVaccination_stores env patient personId vaccineType vaccineDate
    doseNumber batchNumber s s' :
  execute (recordVaccination env patient personId vaccineType vaccineDate
             doseNumber batchNumber) s = (inr tt, s') →
  let newId := totalRecords s + 1 in
  totalRecords s' = newId ∧
  getRecord s' newId
  = VaccineRecord.mk (FHE_asEuint32 personId) (FHE_asEuint8 vaccineType)
      (FHE_asEuint32 vaccineDate) (FHE_asEuint8 doseNumber)
      (FHE_asEuint32 batchNumber) true (block_timestamp env) (msg_sender env) ∧
  getUserRecords s' patient = getUserRecords s patient ++ [newId] ∧
  hasOwnershipOfRecord patient newId s' = true ∧
  (∀ id, id ≠ newId → getRecord s' id = getRecord s id) ∧
  (∀ u, u ≠ patient → getUserRecords s' u = getUserRecords s u) ∧
  authorizedDoctors s' = authorizedDoctors s ∧
  healthAuthority s' = healthAuthority s ∧
  events s' = events s ++ [VaccineRecorded newId patient (msg_sender env)].
Proof.
  intros Hrun newId.
  rewrite recordVaccination_run in Hrun. unfold outcome in Hrun.
  destruct (recordGuards env patient vaccineType doseNumber s); [done|].
  injection Hrun as <-.
  assert (Hlist : getUserRecords
                    (recordEffect env patient personId vaccineType vaccineDate
                       doseNumber batchNumber s) patient
                  = getUserRecords s patient ++ [newId]).
  { rewrite getUserRecords_recordEffect. by rewrite decide_True. }
  split_and!; try reflexivity.
  - rewrite getRecord_recordEffect. by rewrite decide_True.
  - exact Hlist.
  - unfold hasOwnershipOfRecord. rewrite Hlist, scanRecords_app.
    cbn [scanRecords]. by rewrite Z.eqb_refl, orb_true_r.
  - intros id Hid. rewrite getRecord_recordEffect. by rewrite decide_False.
  - intros u Hu. rewrite getUserRecords_recordEffect. by rewrite decide_False.
Qed.

(** X21. All or nothing on overflow: when an authorized doctor sends valid
    fields but the expiry of the owner grant, [now + 365 days], would exceed
    [2^256 - 1], the call panics with code 0x11 after the counter, the
    record and the record list have been written, and the whole state,
    [totalRecords] included, is as before the call. *)
Theorem recordVaccination_overflow_rolls_back env patient personId vaccineType
    vaccineDate doseNumber batchNumber s :
  isDoctor s (msg_sender env) = true →
  patient ≠ 0 →
  1 <= vaccineType <= 10 →
  1 <= doseNumber <= 5 →
  totalRecords s + 1 <= max_uint256 →
  max_uint256 < block_timestamp env + 365 * 86400 →
  execute (recordVaccination env patient personId vaccineType vaccineDate
             doseNumber batchNumber) s = (inl (Panic 17), s).
Proof.
  intros Hdoc Hpat%Z.eqb_neq Hv Hd Hcnt Hbig.
  rewrite recordVaccination_run. unfold recordGuards, days.
  rewrite Hdoc, Hpat. cbn [negb].
  rewrite (proj2 (Z.ltb_lt 0 vaccineType)), (proj2 (Z.leb_le vaccineType 10)),
    (proj2 (Z.ltb_lt 0 doseNumber)), (proj2 (Z.leb_le doseNumber 5)),
    (proj2 (Z.leb_le _ _) Hcnt) by lia.
  cbn [andb negb]. by rewrite (proj2 (Z.leb_gt _ _)) by lia.
Qed.

(** ** Updates *)

Lemma updateEffect_frame env recordId newVaccineType newVaccineDate
    newDoseNumber newBatchNumber s :
  let s' := updateEffect env recordId newVaccineType newVaccineDate
              newDoseNumber newBatchNumber s in
  accessPermissions s' = accessPermissions s ∧
  userRecords s' = userRecords s ∧
  totalRecords s' = totalRecords s ∧
  authorizedDoctors s' = authorizedDoctors s ∧
  healthAuthority s' = healthAuthority s ∧
  (∀ h who, (h, who) ∈ allowed s' → (h, who) ∈ allowed s ∨ who = this env).
Proof.
  unfold updateEffect, replaceField.
  destruct (0 <? newVaccineType), (0 <? newVaccineDate),
    (0 <? newDoseNumber), (0 <? newBatchNumber);
    (split_and!; try reflexivity);
    intros h who; cbn [allowed logEvent allowPair setBatchNumber setDoseNumber
                       setVaccineDate setVaccineType setRecord];
    rewrite ?elem_of_union, ?elem_of_singleton;
    intros Hin; repeat (destruct Hin as [Hin | Hin]); auto;
    right; congruence.
Qed.

(** X22. [updateVaccineRecord] succeeds exactly when the record is active
    and the sender is either the stored creator or holds a row that is an
    effective view grant with [canUpdate]. Otherwise it reverts and changes
    nothing: with "No access permission" when the sender is neither the
    creator nor an effective viewer (whether or not the record is active),
    else with "Record not active" when the record is inactive, else with "No
    update permission". *)
Theorem updateVaccineRecord_succeeds_iff env recordId newVaccineType
    newVaccineDate newDoseNumber newBatchNumber s :
  let creator :=
    bool_decide (VaccineRecord.authorizedDoctor (getRecord s recordId)
                 = msg_sender env) in
  let viewer := hasAccessPermission env (msg_sender env) recordId s in
  let active := VaccineRecord.isActive (getRecord s recordId) in
  let updater := AccessPermission.canUpdate
                   (getPermission s (msg_sender env) recordId) in
  ((∃ s', execute (updateVaccineRecord env recordId newVaccineType
                     newVaccineDate newDoseNumber newBatchNumber) s
          = (inr tt, s')) ↔
   active = true ∧ (creator = true ∨ viewer = true ∧ updater = true)) ∧
  (creator = false → viewer = false →
     execute (updateVaccineRecord env recordId newVaccineType newVaccineDate
                newDoseNumber newBatchNumber) s
     = (inl (Revert "No access permission"), s)) ∧
  (creator = true ∨ viewer = true → active = false →
     execute (updateVaccineRecord env recordId newVaccineType newVaccineDate
                newDoseNumber newBatchNumber) s
     = (inl (Revert "Record not active"), s)) ∧
  (creator = false → viewer = true → active = true → updater = false →
     execute (updateVaccineRecord env recordId newVaccineType newVaccineDate
                newDoseNumber newBatchNumber) s
     = (inl (Revert "No update permission"), s)).
Proof.
  intros creator viewer active updater.
  rewrite updateVaccineRecord_run. unfold updateGuards, outcome.
  fold viewer active updater.
  assert (Hc : (VaccineRecord.authorizedDoctor (getRecord s recordId)
                =? msg_sender env) = creator).
  { subst creator. case_bool_decide as Hd.
    - by apply Z.eqb_eq. - by apply Z.eqb_neq. }
  rewrite Hc.
  destruct creator, viewer, active, updater; cbn [orb negb];
    (split_and!; [split; [intros [? ?] | intros [? [? | [? ?]]]] | ..]);
    try done; try (split; [done | auto]); try (by eexists);
    intros; try done; by destruct_or?.
Qed.

(** X23. What a successful [updateVaccineRecord] changes: in the stored
    record, each of the four updatable fields is replaced by the encryption
    of its new value exactly when that value is positive (a zero leaves the
    field as it is, so all zeros leave every record as it was); the person
    id, the active flag, the creation time and the creator are kept; no
    other record changes. The permission table, the record lists, the
    counter and the doctor list are untouched, and the only authorizations
    added at the sink are for the contract itself: no grantee is authorized
    on a replaced handle. *)
Theorem updateVaccineRecord_effect env recordId newVaccineType newVaccineDate
    newDoseNumber newBatchNumber s s' :
  execute (updateVaccineRecord env recordId newVaccineType newVaccineDate
             newDoseNumber newBatchNumber) s = (inr tt, s') →
  getRecord s' recordId
  = updatedRecord newVaccineType newVaccineDate newDoseNumber newBatchNumber
      (getRecord s recordId) ∧
  (∀ id, id ≠ recordId → getRecord s' id = getRecord s id) ∧
  (newVaccineType = 0 → newVaccineDate = 0 → newDoseNumber = 0 →
   newBatchNumber = 0 → ∀ id, getRecord s' id = getRecord s id) ∧
  accessPermissions s' = accessPermissions s ∧
  userRecords s' = userRecords s ∧
  totalRecords s' = totalRecords s ∧
  authorizedDoctors s' = authorizedDoctors s ∧
  (∀ h who, (h, who) ∈ allowed s' → (h, who) ∈ allowed s ∨ who = this env).
Proof.
  rewrite updateVaccineRecord_run. unfold outcome.
  destruct (updateGuards env recordId s); [done|].
  intros Hs. injection Hs as <-.
  destruct (updateEffect_frame env recordId newVaccineType newVaccineDate
              newDoseNumber newBatchNumber s) as (Hp & Hu & Ht & Hd & _ & Ha).
  split_and!; try done.
  - rewrite getRecord_updateEffect. by rewrite decide_True.
  - intros id Hid. rewrite getRecord_updateEffect. by rewrite decide_False.
  - intros -> -> -> -> id. rewrite getRecord_updateEffect.
    case_decide as Hk; [subst id | done].
    unfold updatedRecord. cbn. by destruct (getRecord s recordId).
Qed.

(** ** Deactivation and verification *)

(** X24. [deactivateRecord] succeeds exactly when the sender is the record's
    stored creator or the health authority; any other sender, the record's
    owner included, gets "Not authorized" and nothing changes. Whether the
    record is active, or exists at all, is not checked. *)
Theorem deactivateRecord_succeeds_iff env recordId s :
  ((∃ s', execute (deactivateRecord env recordId) s = (inr tt, s')) ↔
   VaccineRecord.authorizedDoctor (getRecord s recordId) = msg_sender env ∨
   msg_sender env = healthAuthority s) ∧
  (VaccineRecord.authorizedDoctor (getRecord s recordId) ≠ msg_sender env →
   msg_sender env ≠ healthAuthority s →
   execute (deactivateRecord env recordId) s = (inl (Revert "Not authorized"), s) ∧
   error_kind (Revert "Not authorized") = Some NotAuthorized).
Proof.
  rewrite deactivateRecord_run. unfold deactivateGuards, outcome.
  destruct (VaccineRecord.authorizedDoctor (getRecord s recordId) =? msg_sender env)
    eqn:Hdoc; [apply Z.eqb_eq in Hdoc | apply Z.eqb_neq in Hdoc];
    destruct (msg_sender env =? healthAuthority s) eqn:Hauth;
    [apply Z.eqb_eq in Hauth | apply Z.eqb_neq in Hauth
    |apply Z.eqb_eq in Hauth | apply Z.eqb_neq in Hauth]; cbn [orb];
    (split; [split; [intros [? ?] | intros [? | ?]] | ]); try done;
    try (by eexists); auto.
Qed.

(** X25. What a successful [deactivateRecord] does: it clears the active
    flag of the one record and nothing else: the record keeps its five
    handles, its timestamp and its creator, and the other records, the
    permission table, the record lists, the counter, the doctor list, the
    health authority, the sink's allow-list and the event log are as before
    (no event is logged). From then
    on every [updateVaccineRecord] and every [grantAccess] on the record
    reverts, for the creator and the owner with "Record not active". The
    permission table is untouched, so whoever was an effective viewer still
    is, [verifyVaccineRecord] answers as before, and an owner can still
    revoke. *)
Theorem deactivateRecord_effect env recordId s s' :
  execute (deactivateRecord env recordId) s = (inr tt, s') →
  VaccineRecord.isActive (getRecord s' recordId) = false ∧
  getRecord s' recordId
  = {| VaccineRecord.encryptedPersonId :=
         VaccineRecord.encryptedPersonId (getRecord s recordId);
       VaccineRecord.encryptedVaccineType :=
         VaccineRecord.encryptedVaccineType (getRecord s recordId);
       VaccineRecord.encryptedVaccineDate :=
         VaccineRecord.encryptedVaccineDate (getRecord s recordId);
       VaccineRecord.encryptedDoseNumber :=
         VaccineRecord.encryptedDoseNumber (getRecord s recordId);
       VaccineRecord.encryptedBatchNumber :=
         VaccineRecord.encryptedBatchNumber (getRecord s recordId);
       VaccineRecord.isActive := false;
       VaccineRecord.timestamp := VaccineRecord.timestamp (getRecord s recordId);
       VaccineRecord.authorizedDoctor :=
         VaccineRecord.authorizedDoctor (getRecord s recordId) |} ∧
  (∀ id, id ≠ recordId → getRecord s' id = getRecord s id) ∧
  accessPermissions s' = accessPermissions s ∧
  userRecords s' = userRecords s ∧
  totalRecords s' = totalRecords s ∧
  authorizedDoctors s' = authorizedDoctors s ∧
  healthAuthority s' = healthAuthority s ∧
  allowed s' = allowed s ∧
  events s' = events s ∧
  (∀ env' u id, hasAccessPermission env' u id s' = hasAccessPermission env' u id s) ∧
  (∀ env' x, (execute (verifyVaccineRecord env' recordId x) s').1
             = (execute (verifyVaccineRecord env' recordId x) s).1) ∧
  (∀ env' a b c d,
     ∃ e, execute (updateVaccineRecord env' recordId a b c d) s' = (inl e, s') ∧
          (VaccineRecord.authorizedDoctor (getRecord s recordId) = msg_sender env' →
           e = Revert "Record not active")) ∧
  (∀ env' accessor canView canUpdate D,
     execute (grantAccess env' accessor recordId canView canUpdate D) s'
     = (inl (Revert "Record not active"), s')) ∧
  (∀ env' accessor,
     hasOwnershipOfRecord (msg_sender env') recordId s = true →
     ∃ s'', execute (revokeAccess env' accessor recordId) s' = (inr tt, s'')).
Proof.
  rewrite deactivateRecord_run. unfold outcome.
  destruct (deactivateGuards env recordId s); [done|].
  intros Hs. injection Hs as <-.
  assert (Hoff : VaccineRecord.isActive (getRecord (deactivate recordId s) recordId)
                 = false).
  { rewrite getRecord_deactivate. by rewrite decide_True. }
  assert (Hdoc : VaccineRecord.authorizedDoctor
                   (getRecord (deactivate recordId s) recordId)
                 = VaccineRecord.authorizedDoctor (getRecord s recordId)).
  { rewrite getRecord_deactivate. by rewrite decide_True. }
  split_and!; try reflexivity.
  - exact Hoff.
  - rewrite getRecord_deactivate. by rewrite decide_True.
  - intros id Hid. rewrite getRecord_deactivate. by rewrite decide_False.
  - intros env' x. rewrite !verifyVaccineRecord_run.
    change (hasAccessPermission env' (msg_sender env') recordId
              (deactivate recordId s))
      with (hasAccessPermission env' (msg_sender env') recordId s).
    destruct (hasAccessPermission env' (msg_sender env') recordId s); [|done].
    cbn [fst]. rewrite getRecord_deactivate. by rewrite decide_True.
  - intros env' a b c d. rewrite updateVaccineRecord_run.
    unfold updateGuards. rewrite Hoff, Hdoc. cbn [negb].
    destruct (hasAccessPermission env' (msg_sender env') recordId
                (deactivate recordId s) ||
              (VaccineRecord.authorizedDoctor (getRecord s recordId)
               =? msg_sender env')) eqn:Hpass; cbn [negb outcome].
    + by eexists.
    + eexists. split; [done|]. intros Heq%Z.eqb_eq.
      by rewrite Heq, orb_true_r in Hpass.
  - intros env' accessor canView canUpdate D. rewrite grantAccess_run.
    unfold grantGuards. by rewrite Hoff.
  - intros env' accessor Hown. rewrite revokeAccess_run.
    change (hasOwnershipOfRecord (msg_sender env') recordId (deactivate recordId s))
      with (hasOwnershipOfRecord (msg_sender env') recordId s).
    rewrite Hown. cbn [outcome]. by eexists.
Qed.

(** X26. [verifyVaccineRecord] is gated by the sender's own effective view
    grant and by nothing else: without one it reverts with "No access
    permission", also for the record's creator, who can nevertheless update
    the record; with one it returns the comparison of the stored person-id
    handle with the encrypted expected id. Either way the state is
    unchanged. *)
Theorem verifyVaccineRecord_needs_view_grant env recordId expectedPersonId s :
  (hasAccessPermission env (msg_sender env) recordId s = true →
   execute (verifyVaccineRecord env recordId expectedPersonId) s
   = (inr (FHE_eq (VaccineRecord.encryptedPersonId (getRecord s recordId))
             (FHE_asEuint32 expectedPersonId)), s)) ∧
  (hasAccessPermission env (msg_sender env) recordId s = false →
   execute (verifyVaccineRecord env recordId expectedPersonId) s
   = (inl (Revert "No access permission"), s) ∧
   (VaccineRecord.authorizedDoctor (getRecord s recordId) = msg_sender env →
    VaccineRecord.isActive (getRecord s recordId) = true →
    ∀ a b c d, ∃ s', execute (updateVaccineRecord env recordId a b c d) s
                     = (inr tt, s'))).
Proof.
  rewrite verifyVaccineRecord_run.
  destruct (hasAccessPermission env (msg_sender env) recordId s) eqn:Hview;
    (split; [done|]); [done|].
  intros _. split; [done|]. intros Hdoc Hact a b c d.
  rewrite updateVaccineRecord_run.
  assert (Hg : updateGuards env recordId s = None).
  { apply updateGuards_None. auto. }
  rewrite Hg. cbn [outcome]. by eexists.
Qed.

(** ** Statistics *)

Local Abbreviation activeIn s :=
  (λ i : Z, VaccineRecord.isActive (getRecord s i) = true) (only parsing).

Lemma statisticsLoop_counts s fuel i activeRecords :
  totalRecords s < max_uint256 →
  1 <= i <= totalRecords s + 1 →
  0 <= activeRecords →
  activeRecords + (totalRecords s + 1 - i) <= max_uint256 →
  (Z.to_nat (totalRecords s + 1 - i) < fuel)%nat →
  statisticsLoop fuel i activeRecords s
  = Some (inr (activeRecords +
               Z.of_nat (length (filter (activeIn s)
                                   (seqZ i (totalRecords s + 1 - i)))))).
Proof.
  intros Hmax. revert i activeRecords.
  induction fuel as [|fuel IH]; intros i acc Hi Hacc Hroom Hfuel; [lia|].
  cbn [statisticsLoop].
  destruct (i <=? totalRecords s) eqn:Hle;
    [apply Z.leb_le in Hle | apply Z.leb_gt in Hle].
  - rewrite (seqZ_cons i) by lia. rewrite filter_cons.
    replace (Z.pred (totalRecords s + 1 - i))
      with (totalRecords s + 1 - Z.succ i) by lia.
    unfold checked_add, mret, M_ret, throw.
    rewrite (proj2 (Z.leb_le (i + 1) max_uint256)) by lia.
    replace (i + 1) with (Z.succ i) by lia.
    destruct (VaccineRecord.isActive (getRecord s i)) eqn:Hact.
    + rewrite (proj2 (Z.leb_le (acc + 1) max_uint256)) by lia.
      rewrite IH by lia. rewrite decide_True by done.
      cbn [length]. do 2 f_equal. lia.
    + rewrite IH by lia. rewrite decide_False by (cbn beta; congruence).
      done.
  - replace (totalRecords s + 1 - i) with 0 by lia.
    rewrite seqZ_nil by lia. cbn. do 2 f_equal. lia.
Qed.

(** X27. [getStatistics] terminates and returns, as its first component,
    the number of active records among the ids [1 .. totalRecords], which is
    at most [totalRecords]; its second component, which the source names
    [totalAuthorizedDoctors], is [totalRecords] as well, not a count of
    doctors. (The counter is assumed below [2^256 - 1]; at that value the
    loop's own [i++] would overflow.) *)
Theorem getStatistics_counts s :
  0 <= totalRecords s < max_uint256 →
  getStatistics s = Some (inr (activeCount s, totalRecords s)) ∧
  0 <= activeCount s <= totalRecords s.
Proof.
  intros Hcnt. split.
  - unfold getStatistics, activeCount.
    rewrite (statisticsLoop_counts s _ 1 0) by lia.
    replace (totalRecords s + 1 - 1) with (totalRecords s) by lia.
    done.
  - unfold activeCount. split; [lia|].
    pose proof (length_filter (activeIn s) (seqZ 1 (totalRecords s))) as Hlen.
    rewrite length_seqZ in Hlen. lia.
Qed.

Lemma filter_ext_elem_of (P Q : Z → Prop) `{!∀ x, Decision (P x)}
    `{!∀ x, Decision (Q x)} (l : list Z) :
  (∀ x, x ∈ l → (P x ↔ Q x)) → filter P l = filter Q l.
Proof.
  induction l as [|x l IH]; intros Hext; [done|].
  rewrite !filter_cons.
  assert (Hx : P x ↔ Q x) by (apply Hext; left).
  rewrite IH by (intros y Hy; apply Hext; by right).
  destruct (decide (P x)), (decide (Q x)); tauto || done.
Qed.

Lemma activeCount_split s id :
  1 <= id <= totalRecords s →
  activeCount s
  = Z.of_nat (length (filter (activeIn s) (seqZ 1 (id - 1))))
    + (if VaccineRecord.isActive (getRecord s id) then 1 else 0)
    + Z.of_nat (length (filter (activeIn s) (seqZ (id + 1) (totalRecords s - id)))).
Proof.
  intros Hid. unfold activeCount.
  replace (totalRecords s) with ((id - 1) + (1 + (totalRecords s - id))) at 1 by lia.
  rewrite seqZ_app by lia. rewrite (seqZ_cons (1 + (id - 1))) by lia.
  rewrite filter_app, filter_cons, length_app.
  replace (1 + (id - 1)) with id by lia.
  replace (Z.succ id) with (id + 1) by lia.
  replace (Z.pred (1 + (totalRecords s - id))) with (totalRecords s - id) by lia.
  destruct (VaccineRecord.isActive (getRecord s id)) eqn:Hact.
  - rewrite decide_True by done. cbn [length]. lia.
  - rewrite decide_False by (cbn beta; congruence). lia.
Qed.

(** X28. The statistics follow the life of the records: a successful
    [recordVaccination] raises the number of active records by one, and a
    successful [deactivateRecord] on an existing record lowers it by one if
    the record was active and leaves it as it is otherwise. *)
Theorem activeCount_lifecycle env s s' :
  0 <= totalRecords s →
  (∀ patient personId vaccineType vaccineDate doseNumber batchNumber,
     execute (recordVaccination env patient personId vaccineType vaccineDate
                doseNumber batchNumber) s = (inr tt, s') →
     activeCount s' = activeCount s + 1) ∧
  (∀ recordId,
     1 <= recordId <= totalRecords s →
     execute (deactivateRecord env recordId) s = (inr tt, s') →
     activeCount s'
     = activeCount s
       - (if VaccineRecord.isActive (getRecord s recordId) then 1 else 0)).
Proof.
  intros Hcnt. split.
  - intros patient personId vaccineType vaccineDate doseNumber batchNumber.
    rewrite recordVaccination_run. unfold outcome.
    destruct (recordGuards env patient vaccineType doseNumber s); [done|].
    intros Hs. injection Hs as <-.
    pose proof (getRecord_recordEffect env patient personId vaccineType
                  vaccineDate doseNumber batchNumber s) as Hrec.
    assert (Htot : totalRecords
                     (recordEffect env patient personId vaccineType vaccineDate
                        doseNumber batchNumber s) = totalRecords s + 1)
      by reflexivity.
    remember (recordEffect env patient personId vaccineType vaccineDate
                doseNumber batchNumber s) as s1 eqn:Hs1. clear Hs1.
    rewrite (activeCount_split s1 (totalRecords s + 1)) by lia.
    rewrite Htot, (Hrec (totalRecords s + 1)).
    rewrite decide_True by done. cbn [VaccineRecord.isActive newRecord].
    replace (totalRecords s + 1 - (totalRecords s + 1)) with 0 by lia.
    rewrite (seqZ_nil (totalRecords s + 1 + 1) 0) by lia.
    replace (totalRecords s + 1 - 1) with (totalRecords s) by lia.
    unfold activeCount.
    rewrite (filter_ext_elem_of (activeIn s1) (activeIn s)).
    + cbn [filter list_filter length]. lia.
    + intros x Hx%elem_of_seqZ. rewrite Hrec.
      by rewrite decide_False by lia.
  - intros recordId Hid.
    rewrite deactivateRecord_run. unfold outcome.
    destruct (deactivateGuards env recordId s); [done|].
    intros Hs. injection Hs as <-.
    assert (Htot : totalRecords (deactivate recordId s) = totalRecords s)
      by reflexivity.
    rewrite (activeCount_split (deactivate recordId s) recordId)
      by (rewrite Htot; lia).
    rewrite (activeCount_split s recordId) by lia.
    rewrite Htot.
    rewrite (filter_ext_elem_of (activeIn (deactivate recordId s)) (activeIn s)
               (seqZ 1 _))
      by (intros x Hx%elem_of_seqZ; rewrite getRecord_deactivate;
          by rewrite decide_False by lia).
    rewrite (filter_ext_elem_of (activeIn (deactivate recordId s)) (activeIn s)
               (seqZ (recordId + 1) _))
      by (intros x Hx%elem_of_seqZ; rewrite getRecord_deactivate;
          by rewrite decide_False by lia).
    rewrite getRecord_deactivate. rewrite decide_True by done.
    cbn [VaccineRecord.isActive].
    destruct (VaccineRecord.isActive (getRecord s recordId)); lia.
Qed.

End Lifecycle.

(* ** The further properties at work on the concrete run *)

Import Session.

Ltac by_computation := vm_compute; reflexivity.
Ltac refute_by_computation := vm_compute; intros Hc; discriminate Hc.

(* X3: record 1, once deactivated, is inactive after the later calls. *)
Lemma deactivated_stays_deactivated_witness :
  VaccineRecord.isActive
    (getRecord (run (fhe := toyFHE) (cmp := toyCompare) aftermath withDeactivated) 1)
  = false.
Proof.
  apply (deactivated_stays_deactivated (fhe := toyFHE) (cmp := toyCompare)).
  - refute_by_computation.
  - by_computation.
Defined.

(* X4: the creator of record 1 is the same after the later calls. *)
Lemma record_identity_immutable_witness :
  VaccineRecord.authorizedDoctor
    (getRecord (run (fhe := toyFHE) (cmp := toyCompare) aftermath withRecord) 1)
  = VaccineRecord.authorizedDoctor (getRecord withRecord 1).
Proof.
  apply (record_identity_immutable (fhe := toyFHE) (cmp := toyCompare)).
  refute_by_computation.
Defined.

(* X5: alice still owns record 1 after the later calls, mallory still does
   not. *)
Lemma ownership_immutable_witness :
  hasOwnershipOfRecord alice 1
    (run (fhe := toyFHE) (cmp := toyCompare) aftermath withRecord)
  = hasOwnershipOfRecord alice 1 withRecord ∧
  hasOwnershipOfRecord mallory 1
    (run (fhe := toyFHE) (cmp := toyCompare) aftermath withRecord)
  = hasOwnershipOfRecord mallory 1 withRecord.
Proof.
  split; apply (ownership_immutable (fhe := toyFHE) (cmp := toyCompare));
    refute_by_computation.
Defined.

(* X7: record 1, created after the doctor was authorized, is visible to
   alice only. *)
Lemma fresh_record_private_witness :
  hasOwnershipOfRecord drBob (totalRecords withRecord) withRecord = false ∧
  hasAccessPermission (call drBob t0) drBob (totalRecords withRecord) withRecord
  = false.
Proof.
  assert (Hrun : execute (recordVaccination (fhe := toyFHE) (call drBob t0) alice
                            12345 1 1700000000 1 98765)
                   (run (fhe := toyFHE) (cmp := toyCompare) history
                      (constructor (call ministry t0)))
                 = (inr tt, withRecord)) by by_computation.
  destruct (fresh_record_private (fhe := toyFHE) (cmp := toyCompare)
              _ _ _ _ _ _ _ _ _ _ Hrun drBob) as [Hown Hview].
  { refute_by_computation. }
  split; [exact Hown | apply Hview].
Defined.

(* X8: alice's grant to carol changes carol's row; the sender is an owner. *)
Lemma permission_changes_only_by_owner_witness :
  hasOwnershipOfRecord alice 1 withRecord = true.
Proof.
  destruct (permission_changes_only_by_owner (fhe := toyFHE) (cmp := toyCompare)
              (call alice (t0 + 10)) (GrantAccess carol 1 true false 7)
              withRecord carol 1)
    as [(cv & cu & D & _ & Hown & _) | [[Hc _] | (a & b & c & d & e & Hc & _)]].
  - refute_by_computation.
  - exact Hown.
  - discriminate Hc.
  - discriminate Hc.
Defined.

(* X9: the authorization of drBob changes his flag; the sender is the
   health authority. *)
Lemma doctor_list_changes_only_by_authority_witness :
  msg_sender (call ministry t0) = healthAuthority deployed.
Proof.
  apply (doctor_list_changes_only_by_authority (fhe := toyFHE) (cmp := toyCompare)
           (call ministry t0) (AuthorizeDoctor drBob) deployed drBob).
  refute_by_computation.
Defined.

(* X10: carol, revoked, is still not a viewer ten seconds and three calls
   later. *)
Lemma lost_access_needs_new_grant_witness :
  hasAccessPermission (call carol (t0 + 20)) carol 1
    (run (fhe := toyFHE) (cmp := toyCompare) aftermath withRevoked) = false.
Proof.
  apply (lost_access_needs_new_grant (fhe := toyFHE) (cmp := toyCompare)
           aftermath withRevoked (call carol (t0 + 10))).
  - refute_by_computation.
  - by_computation.
  - refute_by_computation.
  - unfold aftermath.
    repeat (apply Forall_cons; split;
            [intros canView canUpdate D Hc; discriminate Hc|]).
    apply Forall_nil_2.
Defined.

(* X11: mallory cannot touch the doctor list. *)
Lemma only_authority_manages_doctors_witness :
  execute (authorizeDoctor (call mallory t0) mallory) deployed
  = (inl (Revert "Not authorized health authority"), deployed).
Proof.
  apply (only_authority_manages_doctors (call mallory t0) mallory deployed).
  refute_by_computation.
Defined.

(* X12: the ministry authorizes drBob on the fresh contract. *)
Lemma authority_manages_doctors_witness :
  ∃ s1, execute (authorizeDoctor (call ministry t0) drBob) deployed = (inr tt, s1) ∧
        isDoctor s1 drBob = true.
Proof.
  destruct (authority_manages_doctors (fhe := toyFHE) (call ministry t0) drBob
              deployed) as (s1 & s2 & Hrun & _ & Hflag & _).
  { by_computation. }
  exists s1. split; [exact Hrun | exact Hflag].
Defined.

(* X13: drBob, no longer authorized, still updates the record he created. *)
Lemma revoked_doctor_keeps_creator_rights_witness :
  isDoctor withDoctorRevoked drBob = false ∧
  ∃ s'', execute (updateVaccineRecord (fhe := toyFHE) (call drBob (t0 + 30)) 1
                    2 0 2 99999) withDoctorRevoked = (inr tt, s'').
Proof.
  assert (Hrun : execute (revokeDoctor (call ministry (t0 + 5)) drBob) withRecord
                 = (inr tt, withDoctorRevoked)) by by_computation.
  destruct (revoked_doctor_keeps_creator_rights (fhe := toyFHE)
              (call ministry (t0 + 5)) drBob withRecord withDoctorRevoked
              (call drBob (t0 + 30)) 1 2 0 2 99999 Hrun)
    as (Hflag & Hupdate & _).
  - by_computation.
  - by_computation.
  - by_computation.
  - split; [exact Hflag | exact Hupdate].
Defined.


(* X16: the 7-day view grant to carol. *)
Lemma grantAccess_frame_witness :
  getPermission withGrant carol 1
  = AccessPermission.mk true false (t0 + 10 + 7 * 86400) true ∧
  getPermission withGrant alice 1 = getPermission withRecord alice 1 ∧
  vaccineRecords withGrant = vaccineRecords withRecord ∧
  totalRecords withGrant = totalRecords withRecord.
Proof.
  assert (Hrun : execute (grantAccess (call alice (t0 + 10)) carol 1 true false 7)
                   withRecord = (inr tt, withGrant)) by by_computation.
  destruct (grantAccess_frame _ _ _ _ _ _ _ _ Hrun)
    as (Hrow & Hothers & _ & Hrec & Htot & _).
  split_and!; [exact Hrow | | exact Hrec | exact Htot].
  apply Hothers. refute_by_computation.
Defined.

(* X17: carol, revoked, is granted view access again. *)
Lemma regrant_after_revoke_witness :
  ∃ s2,
    execute (grantAccess (call alice (t0 + 40)) carol 1 true false 7) withRevoked
    = (inr tt, s2) ∧
    hasAccessPermission (call alice (t0 + 40)) carol 1 s2 = true.
Proof.
  assert (Hrun : execute (revokeAccess (call alice (t0 + 10)) carol 1) withGrant
                 = (inr tt, withRevoked)) by by_computation.
  destruct (regrant_after_revoke (call alice (t0 + 10)) (call alice (t0 + 40))
              carol 1 true false 7 withGrant withRevoked Hrun)
    as (s2 & Hgrant & _ & Hview).
  - by_computation.
  - by_computation.
  - refute_by_computation.
  - refute_by_computation.
  - refute_by_computation.
  - refute_by_computation.
  - exists s2. split; [exact Hgrant | exact Hview].
Defined.

(* X18: alice revokes carol a second time. *)
Lemma revoke_twice_witness :
  ∃ s2,
    execute (revokeAccess (call alice (t0 + 11)) carol 1) withRevoked = (inr tt, s2) ∧
    getPermission s2 carol 1 = getPermission withRevoked carol 1.
Proof.
  assert (Hrun : execute (revokeAccess (call alice (t0 + 10)) carol 1) withGrant
                 = (inr tt, withRevoked)) by by_computation.
  destruct (revoke_twice (call alice (t0 + 10)) (call alice (t0 + 11)) carol 1
              withGrant withRevoked Hrun)
    as (s2 & Hagain & Hrows & _).
  { reflexivity. }
  exists s2. split; [exact Hagain | apply Hrows].
Defined.

(* X20: the creation of record 1. *)
Lemma recordVaccination_stores_witness :
  VaccineRecord.authorizedDoctor (getRecord withRecord (totalRecords withDoctor + 1))
  = drBob ∧
  hasOwnershipOfRecord alice (totalRecords withDoctor + 1) withRecord = true.
Proof.
  assert (Hrun : execute (recordVaccination (fhe := toyFHE) (call drBob t0) alice
                            12345 1 1700000000 1 98765) withDoctor
                 = (inr tt, withRecord)) by by_computation.
  destruct (recordVaccination_stores (fhe := toyFHE) _ _ _ _ _ _ _ _ _ Hrun)
    as (_ & Hrec & _ & Hown & _).
  split; [by rewrite Hrec | exact Hown].
Defined.

(* X21: a creation attempted 100 seconds before the end of uint256. *)
Lemma recordVaccination_overflow_rolls_back_witness :
  execute (recordVaccination (fhe := toyFHE) (call drBob doomsday) alice
             12345 1 1700000000 1 98765) withDoctor
  = (inl (Panic 17), withDoctor).
Proof.
  apply (recordVaccination_overflow_rolls_back (fhe := toyFHE)).
  - by_computation.
  - refute_by_computation.
  - split; refute_by_computation.
  - split; refute_by_computation.
  - refute_by_computation.
  - by_computation.
Defined.

(* X23: carol's update under the view-and-update grant: the date (new value
   0) is kept, no permission row changes. *)
Lemma updateVaccineRecord_effect_witness :
  VaccineRecord.encryptedVaccineDate (getRecord withUpdate 1)
  = VaccineRecord.encryptedVaccineDate (getRecord withFullGrant 1) ∧
  accessPermissions withUpdate = accessPermissions withFullGrant.
Proof.
  assert (Hrun : execute (updateVaccineRecord (fhe := toyFHE) (call carol (t0 + 20))
                            1 2 0 2 99999) withFullGrant = (inr tt, withUpdate))
    by by_computation.
  destruct (updateVaccineRecord_effect (fhe := toyFHE) _ _ _ _ _ _ _ _ Hrun)
    as (Hrec & _ & _ & Hperm & _).
  split; [by rewrite Hrec | exact Hperm].
Defined.

(* X25: after drBob deactivated record 1, alice is still a viewer and her
   grant attempt is rejected. *)
Lemma deactivateRecord_effect_witness :
  VaccineRecord.encryptedVaccineType (getRecord withDeactivated 1)
  = VaccineRecord.encryptedVaccineType (getRecord withRecord 1) ∧
  VaccineRecord.authorizedDoctor (getRecord withDeactivated 1)
  = VaccineRecord.authorizedDoctor (getRecord withRecord 1) ∧
  hasAccessPermission (call alice (t0 + 30)) alice 1 withDeactivated
  = hasAccessPermission (call alice (t0 + 30)) alice 1 withRecord ∧
  execute (grantAccess (call alice (t0 + 30)) carol 1 true false 7) withDeactivated
  = (inl (Revert "Record not active"), withDeactivated).
Proof.
  assert (Hrun : execute (deactivateRecord (call drBob (t0 + 20)) 1) withRecord
                 = (inr tt, withDeactivated)) by by_computation.
  destruct (deactivateRecord_effect (fhe := toyFHE) (cmp := toyCompare)
              _ _ _ _ Hrun)
    as (_ & Hrec & _ & _ & _ & _ & _ & _ & _ & _ & Hview & _ & _ & Hgrant & _).
  split_and!; [by rewrite Hrec | by rewrite Hrec | apply Hview | apply Hgrant].
Defined.

(* X27: the statistics of the contract holding record 1. *)
Lemma getStatistics_counts_witness :
  getStatistics withRecord = Some (inr (activeCount withRecord, totalRecords withRecord)).
Proof.
  apply getStatistics_counts. split; refute_by_computation || by_computation.
Defined.

(* X28: a second record raises the number of active records by one. *)
Lemma activeCount_lifecycle_witness :
  activeCount withSecondRecord = activeCount withRecord + 1.
Proof.
  assert (Hrun : execute (recordVaccination (fhe := toyFHE) (call drBob (t0 + 50))
                            alice 12345 2 1700000050 1 98766) withRecord
                 = (inr tt, withSecondRecord)) by by_computation.
  destruct (activeCount_lifecycle (fhe := toyFHE) (call drBob (t0 + 50)) withRecord
              withSecondRecord) as [Hcreate _].
  { refute_by_computation. }
  exact (Hcreate _ _ _ _ _ _ Hrun).
Defined.

(* C9: [carol] is granted view access, then revoked: her row keeps its
   flags and expiry with [isActive] cleared, and the sink still authorizes
   her on the handle of the encrypted person id. With an update in between,
   she is still authorized on the vaccine-type handle the record had when
   she was granted. *)
Lemma revokeAccess_frame_witness :
  getPermission withRevoked carol 1
  = AccessPermission.mk true false (t0 + 10 + 7 * 86400) false ∧
  allowed withRevoked = allowed withGrant ∧
  (FHE_asEuint32 (FHE := toyFHE) 12345, carol) ∈ allowed withRevoked ∧
  (FHE_asEuint8 (FHE := toyFHE) 1, carol) ∈ allowed withGrantUpdatedRevoked.
Proof.
  assert (Hgrant : execute (grantAccess (call alice (t0 + 10)) carol 1 true false 7)
                     withRecord = (inr tt, withGrant)) by by_computation.
  assert (Hrun : execute (revokeAccess (call alice (t0 + 10)) carol 1) withGrant
                 = (inr tt, withRevoked)) by by_computation.
  assert (Hlate : execute (revokeAccess (call alice (t0 + 15)) carol 1)
                    withGrantUpdated = (inr tt, withGrantUpdatedRevoked))
    by by_computation.
  assert (Hold : getPermission withGrant carol 1
                 = AccessPermission.mk true false (t0 + 10 + 7 * 86400) true)
    by by_computation.
  destruct (revokeAccess_frame (fhe := toyFHE) (cmp := toyCompare) _ _ _ _ _ Hrun)
    as (Hrow & _ & _ & _ & _ & _ & _ & Hacl & _ & Hkept & _).
  destruct (revokeAccess_frame (fhe := toyFHE) (cmp := toyCompare) _ _ _ _ _ Hlate)
    as (_ & _ & _ & _ & _ & _ & _ & _ & _ & _ & Hkept').
  split_and!.
  - rewrite Hold in Hrow. exact Hrow.
  - exact Hacl.
  - apply (Hkept _ _ _ _ Hgrant). vm_compute. left.
  - apply (Hkept' _ _ _ withRecord withGrant _ Hgrant eq_refl).
    vm_compute. right. left.
Defined.
